(** * AguaClara design: shared plant inputs and pipeline components

    A shallow embedding of [aguaclara/design/component.py] and
    [aguaclara/design/pipeline.py], and the properties of the two files.

    - Python exceptions are values of [exn]; a computation that reads or
      updates the interpreter state is a function [store -> result A * store]
      (the store survives a raised exception, as in Python).
    - [PlantInput.configs] is a dictionary from the [mem_loc] of a component to
      a [PlantInput] object.  Objects have identity: the dictionary holds
      references into [heap], so two entries can name the same record.
    - A pipeline is a [next]-linked forward list of components without
      cycles, embedded as an inductive value; an attribute assignment builds
      the updated object.
    - Quantities carry a rational magnitude and a unit name.  Arithmetic on
      them (pint, floating point) and the formula library
      ([aguaclara.core.physchem], [head_loss], [materials], [utility], the two
      csv tables) live outside these two files: they are the fields of the
      class [Env].  The three formulas that check the range of their
      arguments ([flow_pipe], [headloss_fric], [elbow_minor_loss]) return a
      value or raise; the arithmetic between quantities, the viscosity at 20
      degC and the catalogue look-up are pure functions. *)

From Stdlib Require Import QArith Qabs.
From stdpp Require Import gmap strings list.

Open Scope string_scope.

(** ** Exceptions and results *)

Inductive exn : Type :=
| AttributeError (msg : string)
| TypeError (msg : string)
| ValueError (msg : string)
| KeyError (key : N)
| IndexError (msg : string)
| ZeroDivisionError (msg : string).

(** [KeyError] and [IndexError] are the subclasses of Python's [LookupError]. *)
Definition is_LookupError (e : exn) : bool :=
  match e with
  | KeyError _ | IndexError _ => true
  | _ => false
  end.

Definition is_AttributeError (e : exn) : bool :=
  match e with
  | AttributeError _ => true
  | _ => false
  end.

Definition is_TypeError (e : exn) : bool :=
  match e with
  | TypeError _ => true
  | _ => false
  end.

Inductive result (A : Type) : Type :=
| Ok (a : A)
| Raise (e : exn).

Arguments Ok {A} a.
Arguments Raise {A} e.

Definition is_Ok {A} (r : result A) : bool :=
  match r with
  | Ok _ => true
  | Raise _ => false
  end.

Definition rbind {A B} (r : result A) (k : A -> result B) : result B :=
  match r with
  | Ok a => k a
  | Raise e => Raise e
  end.

Notation "'let!' x ':=' m 'in' k" := (rbind m (fun x => k))
  (at level 10, x pattern, k at level 200).

(** ** Quantities *)

Record Quantity : Type := Qty { magnitude : Q; units : string }.

Definition qabs (a : Quantity) : Quantity :=
  Qty (Qabs (magnitude a)) (units a).

(** The numeric layer and the formula library, which are not part of the two
    embedded files. *)
Class Env : Type := {
  (* pint arithmetic on quantities *)
  qadd : Quantity -> Quantity -> Quantity;
  qsub : Quantity -> Quantity -> Quantity;
  qmul : Quantity -> Quantity -> Quantity;
  qdiv : Quantity -> Quantity -> Quantity;
  (* [x.to(unit)] *)
  qto : Quantity -> string -> Quantity;
  qto_same : forall a, qto a (units a) = a;
  (* aguaclara.core.physchem; the formulas raise on arguments out of their
     range, a head loss below zero or a flow rate that is not positive *)
  viscosity_kinematic : Quantity -> Quantity;
  flow_pipe :
    Quantity -> Quantity -> Quantity -> Quantity -> Quantity -> Quantity ->
    result Quantity;
  headloss_fric :
    Quantity -> Quantity -> Quantity -> Quantity -> Quantity ->
    result Quantity;
  (* the coefficient is passed as the Python value it is: it may be [None] *)
  elbow_minor_loss : Quantity -> Quantity -> option Quantity -> result Quantity;
  (* aguaclara.core.materials, aguaclara.core.head_loss *)
  PVC_PIPE_ROUGH : Quantity;
  EL45_K_MINOR : Quantity;
  EL90_K_MINOR : Quantity;
  TEE_FLOW_BR_K_MINOR : Quantity;
  TEE_FLOW_RUN_K_MINOR : Quantity;
  (* aguaclara.core.utility *)
  ceil_nearest : Quantity -> list Quantity -> Quantity;
  (* the columns of the rows with Used == 1 of the two csv tables *)
  AVAILABLE_SIZES : list Quantity;
  AVAILABLE_IDS_SCH40 : list Quantity;
  AVAILABLE_FITTING_SIZES : list Quantity;
  AVAILABLE_FITTING_IDS : list Quantity
}.

(** [a == b], [a != b], [a > b] and [a < b] on quantities: the right operand
    is brought to the unit of the left one and the magnitudes are compared. *)
Definition qeqb `{Env} (a b : Quantity) : bool :=
  Qeq_bool (magnitude a) (magnitude (qto b (units a))).

Definition qneb `{Env} (a b : Quantity) : bool := negb (qeqb a b).

Definition qltb `{Env} (a b : Quantity) : bool :=
  negb (Qle_bool (magnitude (qto b (units a))) (magnitude a)).

Definition qgtb `{Env} (a b : Quantity) : bool :=
  negb (Qle_bool (magnitude a) (magnitude (qto b (units a)))).

(** ** The interpreter state seen by the two files *)

Module PlantInput.
Record t : Type := mk { q : Quantity; temp : Quantity }.
End PlantInput.

Record store : Type := mkStore {
  (* the class attribute [PlantInput.configs] *)
  configs : gmap N N;
  (* the [PlantInput] objects, by identity *)
  heap : gmap N PlantInput.t
}.

Definition M (A : Type) : Type := store -> result A * store.

Definition ret {A} (a : A) : M A := fun s => (Ok a, s).

Definition raise {A} (e : exn) : M A := fun s => (Raise e, s).

Definition bind {A B} (m : M A) (k : A -> M B) : M B :=
  fun s =>
    match m s with
    | (Ok a, s') => k a s'
    | (Raise e, s') => (Raise e, s')
    end.

(** A computation that only reads the store. *)
Definition reading {A} (f : store -> result A) : M A := fun s => (f s, s).

Declare Scope py_scope.
Delimit Scope py_scope with py.
Notation "x <- m ;; k" := (bind m (fun x => k))
  (at level 100, m at next level, right associativity) : py_scope.
Notation "m ;;; k" := (bind m (fun _ => k))
  (at level 100, right associativity) : py_scope.
Open Scope py_scope.

(** ** component.py *)

(** A [Component] object holds one attribute, [mem_loc = hex(id(self))]; [hex]
    is injective, so the embedding keeps the address itself. *)
Record Component : Type := mkComponent { mem_loc : N }.

Definition default_q : Quantity := Qty 20 "L/s".
Definition default_temp : Quantity := Qty 20 "degC".

(** [PlantInput(q, temp)]: a new object, at an identity no live record has. *)
Definition new_PlantInput (q temp : Quantity) : M N :=
  fun s =>
    let r := fresh (dom (heap s)) in
    (Ok r, mkStore (configs s) (<[r := PlantInput.mk q temp]> (heap s))).

(** [Component.__init__(self, q, temp)]; [self_id] is [id(self)]. *)
Definition Component_init (self_id : N) (q temp : Quantity) : M Component :=
  fun s =>
    let self := mkComponent self_id in
    match configs s !! mem_loc self with
    | Some _ => (Ok self, s)
    | None =>
        match new_PlantInput q temp s with
        | (Ok r, s') =>
            (Ok self, mkStore (<[mem_loc self := r]> (configs s')) (heap s'))
        | (Raise e, s') => (Raise e, s')
        end
    end.

(** [PlantInput.configs[loc]].  A reference held by the dictionary keeps its
    record alive, so the inner lookup always finds it. *)
Definition configs_getitem (loc : N) (s : store) : result PlantInput.t :=
  match configs s !! loc with
  | Some r => Ok (default (PlantInput.mk default_q default_temp) (heap s !! r))
  | None => Raise (KeyError loc)
  end.

(** The property [Component.q]. *)
Definition Component_q (self : Component) (s : store) : result Quantity :=
  rbind (configs_getitem (mem_loc self) s) (fun p => Ok (PlantInput.q p)).

(** The property [Component.temp]. *)
Definition Component_temp (self : Component) (s : store) : result Quantity :=
  rbind (configs_getitem (mem_loc self) s) (fun p => Ok (PlantInput.temp p)).

(** [self.q = v]: [q] is a property without a setter (the message is the one
    of CPython up to 3.10; later versions name the property). *)
Definition Component_set_q (self : Component) (v : Quantity) : M unit :=
  raise (AttributeError "can't set attribute").

(** [Component.propogate_config(self, subcomponents)]; [hex(id(subcomp))] is
    the [mem_loc] the child took from the same [id] when it was built. *)
Fixpoint propogate_config (self : Component) (subcomponents : list Component)
  : M unit :=
  match subcomponents with
  | [] => ret tt
  | subcomp :: rest =>
      fun s =>
        let sub_mem_loc := mem_loc subcomp in
        match configs s !! mem_loc self with
        | Some r =>
            propogate_config self rest
              (mkStore (<[sub_mem_loc := r]> (configs s)) (heap s))
        | None => (Raise (KeyError (mem_loc self)), s)
        end
  end.

(** [PlantInput.configs[loc].q = v]: assignment to the attribute [q] of the
    record object that [loc] is associated with. *)
Definition configs_set_q (loc : N) (v : Quantity) : M unit :=
  fun s =>
    match configs s !! loc with
    | Some r =>
        let p := default (PlantInput.mk default_q default_temp) (heap s !! r) in
        (Ok tt,
         mkStore (configs s)
           (<[r := PlantInput.mk v (PlantInput.temp p)]> (heap s)))
    | None => (Raise (KeyError loc), s)
    end.

(** ** pipeline.py: the components of a pipeline *)

Inductive pytype : Type := TPipe | TElbow | TTee.

Global Instance pytype_eq_dec : EqDecision pytype.
Proof. solve_decision. Defined.

(** The attributes every [PipelineComponent] is given by the base class. *)
Record base : Type := mkBase {
  as_Component : Component;
  size : Quantity;
  nu : Quantity;
  k_minor : Quantity
}.

Record pipe_attrs : Type := mkPipeAttrs {
  spec : string;
  length : Quantity;
  pipe_rough : Quantity
}.

(** An outlet coefficient is [None] for a stopper; [next_type] is absent
    until the last part of [Tee.__init__] has run. *)
Record tee_attrs : Type := mkTeeAttrs {
  left_type : string;
  left_k_minor : option Quantity;
  right_type : string;
  right_k_minor : option Quantity;
  next_type : option string
}.

#[warnings="-register-all"] Inductive component : Type :=
| Pipe (b : base) (next : option component) (id : Quantity) (p : pipe_attrs)
| Elbow (b : base) (next : option component) (id : Quantity)
    (angle : Quantity)
| Tee (b : base) (next : option component) (id : Quantity) (t : tee_attrs)
    (left right : option component).

Definition type_of (self : component) : pytype :=
  match self with
  | Pipe _ _ _ _ => TPipe
  | Elbow _ _ _ _ => TElbow
  | Tee _ _ _ _ _ _ => TTee
  end.

Definition base_of (self : component) : base :=
  match self with
  | Pipe b _ _ _ | Elbow b _ _ _ | Tee b _ _ _ _ _ => b
  end.

Definition next (self : component) : option component :=
  match self with
  | Pipe _ n _ _ | Elbow _ n _ _ | Tee _ n _ _ _ _ => n
  end.

Definition id (self : component) : Quantity :=
  match self with
  | Pipe _ _ i _ | Elbow _ _ i _ | Tee _ _ i _ _ _ => i
  end.

(** [self.next = n], [self.size = v], [self.id = v]: plain attributes. *)
Definition set_next (self : component) (n : option component) : component :=
  match self with
  | Pipe b _ i p => Pipe b n i p
  | Elbow b _ i a => Elbow b n i a
  | Tee b _ i t l r => Tee b n i t l r
  end.

Definition set_base (self : component) (b : base) : component :=
  match self with
  | Pipe _ n i p => Pipe b n i p
  | Elbow _ n i a => Elbow b n i a
  | Tee _ n i t l r => Tee b n i t l r
  end.

Definition set_size (self : component) (v : Quantity) : component :=
  let b := base_of self in
  set_base self (mkBase (as_Component b) v (nu b) (k_minor b)).

Definition set_k_minor (self : component) (v : Quantity) : component :=
  let b := base_of self in
  set_base self (mkBase (as_Component b) (size b) (nu b) v).

Definition set_id (self : component) (v : Quantity) : component :=
  match self with
  | Pipe b n _ p => Pipe b n v p
  | Elbow b n _ a => Elbow b n v a
  | Tee b n _ t l r => Tee b n v t l r
  end.

(** Reading an attribute of [o], which may be [None] or an object of a class
    that does not have it. *)
Definition no_attribute {A} (name : string) : result A :=
  Raise (AttributeError ("object has no attribute " ++ name)).

Definition getattr_id (o : option component) : result Quantity :=
  match o with
  | Some c => Ok (id c)
  | None => no_attribute "id"
  end.

Definition getattr_nu (o : option component) : result Quantity :=
  match o with
  | Some c => Ok (nu (base_of c))
  | None => no_attribute "nu"
  end.

Definition getattr_k_minor (o : option component) : result Quantity :=
  match o with
  | Some c => Ok (k_minor (base_of c))
  | None => no_attribute "k_minor"
  end.

Definition getattr_length (o : option component) : result Quantity :=
  match o with
  | Some (Pipe _ _ _ p) => Ok (length p)
  | _ => no_attribute "length"
  end.

Definition getattr_pipe_rough (o : option component) : result Quantity :=
  match o with
  | Some (Pipe _ _ _ p) => Ok (pipe_rough p)
  | _ => no_attribute "pipe_rough"
  end.

Definition getattr_spec (o : option component) : result string :=
  match o with
  | Some (Pipe _ _ _ p) => Ok (spec p)
  | _ => no_attribute "spec"
  end.

Definition getattr_angle (o : option component) : result Quantity :=
  match o with
  | Some (Elbow _ _ _ a) => Ok a
  | _ => no_attribute "angle"
  end.

(** [try: r except AttributeError: raise e]. *)
Definition except_AttributeError {A} (r : result A) (e : exn) : result A :=
  match r with
  | Raise (AttributeError _) => Raise e
  | _ => r
  end.

Section Pipeline.
Context `{Env}.

(** The property [headloss] of [Pipe], [Elbow] and [Tee]. *)
Definition headloss (self : component) (s : store) : result Quantity :=
  match self with
  | Pipe b _ i p =>
      rbind (Component_q (as_Component b) s) (fun q =>
      headloss_fric q i (length p) (nu b) (pipe_rough p))
  | Elbow b _ i _ =>
      rbind (Component_q (as_Component b) s) (fun q =>
      rbind (elbow_minor_loss q i (Some (k_minor b))) (fun h =>
      Ok (qto h "m")))
  | Tee b _ i t _ _ =>
      if String.eqb (left_type t) "stopper" then
        (* _headloss_right *)
        rbind (Component_q (as_Component b) s) (fun q =>
        rbind (elbow_minor_loss q i (right_k_minor t)) (fun h =>
        Ok (qto h "m")))
      else
        (* _headloss_left *)
        rbind (Component_q (as_Component b) s) (fun q =>
        rbind (elbow_minor_loss q i (left_k_minor t)) (fun h =>
        Ok (qto h "m")))
  end.

(** The property [PipelineComponent.headloss_pipeline]. *)
Fixpoint headloss_pipeline (self : component) (s : store) : result Quantity :=
  match next self with
  | None => headloss self s
  | Some n =>
      rbind (headloss self s) (fun h =>
      rbind (headloss_pipeline n s) (fun rest =>
      Ok (qadd h rest)))
  end.

(** [PipelineComponent.set_next_components_q]. *)
Fixpoint set_next_components_q (self : component) : M unit :=
  match next self with
  | Some n =>
      v <- reading (Component_q (as_Component (base_of self))) ;;
      Component_set_q (as_Component (base_of n)) v ;;;
      set_next_components_q n
  | None => ret tt
  end.

(** The first statement of [flow_pipeline]: the initial flow, from [self] when
    it is a [Pipe], otherwise from the attributes of [self.next] inside a
    [try] whose [except AttributeError] clause raises its own error.  What
    [pc.flow_pipe] raises (a [ValueError] for a target below zero) leaves the
    method, inside the [try] unless it is an [AttributeError]. *)
Definition flow_seed (self : component) (target_headloss : Quantity)
  : result Quantity :=
  if bool_decide (type_of self = TPipe) then
    let! i := getattr_id (Some self) in
    let! l := getattr_length (Some self) in
    let! n := getattr_nu (Some self) in
    let! r := getattr_pipe_rough (Some self) in
    let! k := getattr_k_minor (Some self) in
    flow_pipe i target_headloss l n r k
  else
    except_AttributeError
      (let! i := getattr_id (next self) in
       let! l := getattr_length (next self) in
       let! n := getattr_nu (next self) in
       let! r := getattr_pipe_rough (next self) in
       let! k := getattr_k_minor (next self) in
       flow_pipe i target_headloss l n r k)
      (AttributeError
         "Neither of the first two components inthis pipeline are Pipe objects.").

(** The [while] loop of [flow_pipeline]; [None] when [fuel] iterations were
    not enough. *)
Fixpoint flow_loop (fuel : nat) (self : component)
    (target_headloss err flow headloss : Quantity) : M (option Quantity) :=
  if qgtb (qabs err) (Qty 0.01 "") then
    match fuel with
    | O => ret None
    | S fuel' =>
        let err :=
          qdiv (qsub target_headloss headloss) (qadd target_headloss headloss)
        in
        let flow := qadd flow (qmul err flow) in
        Component_set_q (as_Component (base_of self)) flow ;;;
        set_next_components_q self ;;;
        headloss <- reading (headloss_pipeline self) ;;
        flow_loop fuel' self target_headloss err flow headloss
    end
  else ret (Some (qto flow "L/s")).

(** [PipelineComponent.flow_pipeline].  The target is a quantity of the
    dimension of a length, like the head losses it is compared with, so that
    the arithmetic of the loop returns. *)
Definition flow_pipeline (fuel : nat) (self : component)
    (target_headloss : Quantity) : M (option Quantity) :=
  flow <- reading (fun _ => flow_seed self target_headloss) ;;
  let err := Qty 1.0 "" in
  headloss <- reading (headloss_pipeline self) ;;
  flow_loop fuel self target_headloss err flow headloss.

End Pipeline.

(** ** pipeline.py: validation and construction *)

(** A Python value passed as a keyword argument; an object is passed by
    reference. *)
Inductive pyval : Type :=
| VQty (v : Quantity)
| VStr (s : string)
| VObj (addr : N)
| VNone.

(** The dictionary [**kwargs]: the two keywords that [Component.__init__]
    declares, with their documented type, and every other keyword by name
    (the entries of [kw_rest] under ["q"] and ["temp"] are never read). *)
Record kwargs : Type := mkKwargs {
  kw_q : option Quantity;
  kw_temp : option Quantity;
  kw_rest : gmap string pyval
}.

(** [key in kwargs]. *)
Definition kw_in (key : string) (kw : kwargs) : bool :=
  if String.eqb key "q" then bool_decide (is_Some (kw_q kw))
  else if String.eqb key "temp" then bool_decide (is_Some (kw_temp kw))
  else bool_decide (is_Some (kw_rest kw !! key)).

(** [Component.__init__(self, **kwargs)]: a keyword that is not a parameter of
    the function is a [TypeError]; a missing one takes its default. *)
Definition Component_call (self_id : N) (kw : kwargs) : M Component :=
  if bool_decide (dom (kw_rest kw) ⊆ ({["q"; "temp"]} : gset string)) then
    Component_init self_id
      (default default_q (kw_q kw)) (default default_temp (kw_temp kw))
  else
    raise (TypeError "__init__() got an unexpected keyword argument").

Definition AVAILABLE_SPECS : list string := ["sdr26"; "sdr41"; "sch40"].
Definition AVAILABLE_PATHS : list string := ["branch"; "run"; "stopper"].

(** [l.count(x)] on a list of strings. *)
Fixpoint count (l : list string) (x : string) : nat :=
  match l with
  | [] => 0
  | y :: l' => (if String.eqb y x then 1 else 0) + count l' x
  end.

(** [PipelineComponent._rep_ok]. *)
Definition PipelineComponent_rep_ok (self : component) : result unit :=
  match next self with
  | Some n =>
      if bool_decide (type_of self = TPipe)
         && negb (bool_decide (type_of n ∈ [TElbow; TTee]))
      then Raise (TypeError "Pipes must be connected with fittings.")
      else if bool_decide (type_of self ∈ [TElbow])
              && negb (bool_decide (type_of n ∈ [TPipe]))
      then Raise (TypeError "Fittings must be followed by pipes.")
      else Ok tt
  | None => Ok tt
  end.

Section Construction.
Context `{Env}.

(** [Tee._rep_ok], on the attributes of a [Tee]. *)
Definition Tee_rep_ok (b : base) (n : option component) (t : tee_attrs)
  : result unit :=
  if negb (Nat.eqb (count [left_type t; right_type t] "stopper") 1)
  then Raise (ValueError "All tees must have one stopper.")
  else if negb (bool_decide (left_type t ∈ AVAILABLE_PATHS))
  then Raise (ValueError "type of branch for left outlet must be in ")
  else if negb (bool_decide (right_type t ∈ AVAILABLE_PATHS))
  then Raise (ValueError "type of branch for right outlet must be in ")
  else
    match n with
    | Some n' =>
        if qneb (size b) (size (base_of n'))
        then Raise (ValueError "The next component doesn't have the same size.")
        else if bool_decide (type_of n' ∈ [TElbow; TTee])
        then Raise (ValueError "Tees cannot be followed by other fittings.")
        else Ok tt
    | None => Ok tt
    end.

(** [self._rep_ok()]: [Tee] overrides the method of the base class. *)
Definition rep_ok (self : component) : result unit :=
  match self with
  | Tee b n _ t _ _ => Tee_rep_ok b n t
  | _ => PipelineComponent_rep_ok self
  end.

(** [PipelineComponent.get_available_size]. *)
Definition get_available_size (size : Quantity) : Quantity :=
  ceil_nearest size AVAILABLE_SIZES.

(** [PipelineComponent.__init__(self, **kwargs)], entered from the constructor
    of a subclass; [self0] is the object as the subclass has left it, a
    function of the attributes the base classes are about to set. *)
Definition PipelineComponent_init (self_id : N) (kw : kwargs)
    (self0 : base -> option component -> component) : M component :=
  if kw_in "size" kw && kw_in "id" kw then
    raise (AttributeError
      "A PipelineComponent must be instantiated with either the size or inner diameter, but not both.")
  else
    let size0 := Qty 0.5 "inch" in
    let nu0 := viscosity_kinematic (Qty 20 "degC") in
    let next0 := None in
    let k_minor0 := Qty 0 "" in
    c <- Component_call self_id kw ;;
    let self := self0 (mkBase c size0 nu0 k_minor0) next0 in
    reading (fun _ => rep_ok self) ;;;
    ret (set_size self (get_available_size (size (base_of self)))).

(** [np.abs(arr - x).argmin()]: the first index of the least distance. *)
Fixpoint argmin_from (best_i : nat) (best : Quantity) (i : nat)
    (l : list Quantity) : nat :=
  match l with
  | [] => best_i
  | d :: l' =>
      if qltb d best then argmin_from i d (S i) l'
      else argmin_from best_i best (S i) l'
  end.

Definition argmin_abs_diff (arr : list Quantity) (x : Quantity) : result nat :=
  match map (fun a => qabs (qsub a x)) arr with
  | [] => Raise (ValueError "attempt to get argmin of an empty sequence")
  | d :: l' => Ok (argmin_from 0 d 1 l')
  end.

(** [arr[i]]. *)
Definition getitem (arr : list Quantity) (i : nat) : result Quantity :=
  match arr !! i with
  | Some v => Ok v
  | None => Raise (IndexError "index is out of bounds")
  end.

(** [int(s)] on a string of ASCII characters, in base ten: blanks around the
    literal are dropped, a sign may come first, and the digits may be
    separated by single underscores. *)
Definition ord (c : Ascii.ascii) : Z := Z.of_nat (Ascii.nat_of_ascii c).

Definition digit_of (c : Ascii.ascii) : option Z :=
  if bool_decide (48 <= ord c <= 57)%Z then Some (ord c - 48)%Z else None.

(* the space, and the control characters from tab to carriage return *)
Definition is_space (c : Ascii.ascii) : bool :=
  bool_decide (9 <= ord c <= 13)%Z || bool_decide (ord c = 32)%Z.

Fixpoint lstrip (s : string) : string :=
  match s with
  | EmptyString => EmptyString
  | String c s' => if is_space c then lstrip s' else s
  end.

Fixpoint rstrip (s : string) : string :=
  match s with
  | EmptyString => EmptyString
  | String c s' =>
      match rstrip s' with
      | EmptyString => if is_space c then EmptyString else String c EmptyString
      | r => String c r
      end
  end.

(** The digits of the literal; [after_digit] tells whether the character
    before was a digit: the literal cannot be empty, and an underscore stands
    between two digits. *)
Fixpoint int_digits (acc : Z) (after_digit : bool) (s : string) : option Z :=
  match s with
  | EmptyString => if after_digit then Some acc else None
  | String c s' =>
      match digit_of c with
      | Some d => int_digits (10 * acc + d)%Z true s'
      | None =>
          (* an underscore *)
          if bool_decide (ord c = 95)%Z && after_digit
          then int_digits acc false s'
          else None
      end
  end.

Definition int (s : string) : result Z :=
  let literal := rstrip (lstrip s) in
  let '(negative, digits) :=
    match literal with
    | String c s' =>
        (* a plus or a minus sign *)
        if bool_decide (ord c = 43)%Z then (false, s')
        else if bool_decide (ord c = 45)%Z then (true, s')
        else (false, literal)
    | EmptyString => (false, literal)
    end in
  match int_digits 0 false digits with
  | Some z => Ok (if negative then (- z)%Z else z)
  | None => Raise (ValueError "invalid literal for int() with base 10")
  end.

Definition of_int (z : Z) : Quantity := Qty (inject_Z z) "".

(** The methods below assign attributes of [self] and return a value: they
    yield the updated object together with the value. *)

(** [Pipe._get_id_sdr].  The size it divides is taken from the numpy array
    [AVAILABLE_SIZES]: the division of a numpy scalar returns, by zero too. *)
Definition Pipe_get_id_sdr (self : component) (size_ : Quantity) (sdr : Z)
  : component * Quantity :=
  let self := set_size self (get_available_size size_) in
  (self, qdiv (qmul (size (base_of self)) (of_int (sdr - 2))) (of_int sdr)).

(** [Pipe._get_id_sch40]. *)
Definition Pipe_get_id_sch40 (self : component) (size_ : Quantity)
  : result (component * Quantity) :=
  let self := set_size self (get_available_size size_) in
  rbind (argmin_abs_diff AVAILABLE_SIZES (size (base_of self))) (fun myindex =>
  rbind (getitem AVAILABLE_IDS_SCH40 myindex) (fun v =>
  Ok (self, v))).

(** [Pipe._get_size_sdr].  The inner diameter it is given is a quantity over a
    Python float, as [self.id] is: dividing it by the integer zero raises. *)
Definition Pipe_get_size_sdr (self : component) (id_ : Quantity) (sdr : Z)
  : result (component * Quantity) :=
  if (sdr - 2 =? 0)%Z then Raise (ZeroDivisionError "float division by zero")
  else
    let nd :=
      get_available_size (qdiv (qmul id_ (of_int sdr)) (of_int (sdr - 2))) in
    let '(self, v) := Pipe_get_id_sdr self nd sdr in
    Ok (set_id self v, nd).

(** [Pipe._get_size_sch40]. *)
Definition Pipe_get_size_sch40 (self : component) (id_ : Quantity)
  : result (component * Quantity) :=
  rbind (argmin_abs_diff AVAILABLE_IDS_SCH40 id_) (fun myindex =>
  rbind (getitem AVAILABLE_IDS_SCH40 myindex) (fun v =>
  let self := set_id self v in
  rbind (getitem AVAILABLE_SIZES myindex) (fun sz =>
  Ok (self, sz)))).

(** [Pipe._get_size] and [Pipe._get_id]; the value is [None] when no branch
    of the method returns. *)
Definition Pipe_get_size (self : component) (id_ : Quantity) (spec_ : string)
  : result (component * option Quantity) :=
  if String.eqb (String.substring 0 3 spec_) "sdr" then
    rbind (int (String.substring 3 (String.length spec_ - 3) spec_)) (fun sdr =>
    rbind (Pipe_get_size_sdr self id_ sdr) (fun '(self, v) =>
    Ok (self, Some v)))
  else if String.eqb spec_ "sch40" then
    rbind (Pipe_get_size_sch40 self id_) (fun '(self, v) => Ok (self, Some v))
  else Ok (self, None).

Definition Pipe_get_id (self : component) (size_ : Quantity) (spec_ : string)
  : result (component * option Quantity) :=
  if String.eqb (String.substring 0 3 spec_) "sdr" then
    rbind (int (String.substring 3 (String.length spec_ - 3) spec_)) (fun sdr =>
    let '(self, v) := Pipe_get_id_sdr self size_ sdr in Ok (self, Some v))
  else if String.eqb spec_ "sch40" then
    rbind (Pipe_get_id_sch40 self size_) (fun '(self, v) => Ok (self, Some v))
  else Ok (self, None).

(** [_get_size] and [_get_id] of [Elbow] and of [Tee] (the same text in both
    classes). *)
Definition fitting_get_size (self : component) (id_ : Quantity)
  : result (component * Quantity) :=
  rbind (argmin_abs_diff AVAILABLE_FITTING_IDS id_) (fun myindex =>
  rbind (getitem AVAILABLE_FITTING_IDS myindex) (fun v =>
  let self := set_id self v in
  rbind (getitem AVAILABLE_FITTING_SIZES myindex) (fun sz =>
  Ok (self, sz)))).

Definition fitting_get_id (self : component) (size_ : Quantity)
  : result (component * Quantity) :=
  rbind (argmin_abs_diff AVAILABLE_FITTING_SIZES size_) (fun myindex =>
  rbind (getitem AVAILABLE_FITTING_SIZES myindex) (fun sz =>
  let self := set_size self sz in
  rbind (getitem AVAILABLE_FITTING_IDS myindex) (fun v =>
  Ok (self, v)))).

(** [if self.next is not None and self.size != self.next.size: raise ...]. *)
Definition check_next_size (self : component) (msg : string) : result unit :=
  match next self with
  | Some n =>
      if qneb (size (base_of self)) (size (base_of n))
      then Raise (ValueError msg)
      else Ok tt
  | None => Ok tt
  end.

(** [self.attr = v] where [v] is the value of [_get_id] or [_get_size]; it is
    [None] only for a [spec] outside [AVAILABLE_SPECS], which the constructor
    has excluded before the call, and the attribute is then left as it is. *)
Definition assign (set : component -> Quantity -> component)
    (self : component) (v : option Quantity) : component :=
  match v with
  | Some x => set self x
  | None => self
  end.

(** [Pipe.__init__], after [super().__init__] has returned. *)
Definition Pipe_init_finish (kw : kwargs) (self : component)
  : result component :=
  let! spec_ := getattr_spec (Some self) in
  if negb (bool_decide (spec_ ∈ AVAILABLE_SPECS)) then
    Raise (AttributeError "spec must be one of:")
  else
    let! self :=
      if kw_in "size" kw then
        let! (self, v) := Pipe_get_id self (size (base_of self)) spec_ in
        Ok (assign set_id self v)
      else if kw_in "id" kw then
        let! (self, v) := Pipe_get_size self (id self) spec_ in
        Ok (assign set_size self v)
      else Ok self
    in
    let! _ :=
      check_next_size self
        "size of the next pipeline component must be the same size as the current pipeline component"
    in
    Ok self.

(** The constructor call of [Pipe]; [self_id] is the identity of the new object. *)
Definition Pipe_init (self_id : N) (kw : kwargs) : M component :=
  let self0 b n :=
    Pipe b n (Qty 0.476 "inch")
      (mkPipeAttrs "sdr41" (Qty 1 "m") PVC_PIPE_ROUGH) in
  self <- PipelineComponent_init self_id kw self0 ;;
  reading (fun _ => Pipe_init_finish kw self).

(** [Elbow.__init__], after [super().__init__] has returned. *)
Definition Elbow_init_finish (kw : kwargs) (self : component)
  : result component :=
  let! angle := getattr_angle (Some self) in
  let! self :=
    if qeqb angle (Qty 45 "deg") then Ok (set_k_minor self EL45_K_MINOR)
    else if qeqb angle (Qty 90 "deg") then Ok (set_k_minor self EL90_K_MINOR)
    else Raise (ValueError "angle must be in ")
  in
  let! self :=
    if kw_in "size" kw then
      let! (self, v) := fitting_get_id self (size (base_of self)) in
      Ok (set_id self v)
    else if kw_in "id" kw then
      let! (self, v) := fitting_get_size self (id self) in
      Ok (set_size self v)
    else Ok self
  in
  let! _ :=
    check_next_size self "The next component doesn't have the same size." in
  Ok self.

(** The constructor call of [Elbow]. *)
Definition Elbow_init (self_id : N) (kw : kwargs) : M component :=
  let self0 b n := Elbow b n (Qty 0.848 "inch") (Qty 90 "deg") in
  self <- PipelineComponent_init self_id kw self0 ;;
  reading (fun _ => Elbow_init_finish kw self).

(** The coefficient of an outlet, from its type. *)
Definition outlet_k_minor (type_ : string) (current : option Quantity)
  : option Quantity :=
  if String.eqb type_ "branch" then Some TEE_FLOW_BR_K_MINOR
  else if String.eqb type_ "run" then Some TEE_FLOW_RUN_K_MINOR
  else if String.eqb type_ "stopper" then None
  else current.

(** [Tee.__init__], after [super().__init__] has returned. *)
Definition Tee_init_finish (kw : kwargs) (self : component)
  : result component :=
  match self with
  | Tee b _ i t left_ right_ =>
      let left_k := outlet_k_minor (left_type t) (left_k_minor t) in
      let right_k := outlet_k_minor (right_type t) (right_k_minor t) in
      let '(n, nt) :=
        if String.eqb (left_type t) "stopper" then (right_, right_type t)
        else (left_, left_type t) in
      let self :=
        Tee b n i
          (mkTeeAttrs (left_type t) left_k (right_type t) right_k (Some nt))
          left_ right_ in
      let! self :=
        if kw_in "size" kw then
          let! (self, v) := fitting_get_id self (size (base_of self)) in
          Ok (set_id self v)
        else if kw_in "id" kw then
          let! (self, v) := fitting_get_size self (id self) in
          Ok (set_size self v)
        else Ok self
      in
      let! _ := rep_ok self in
      Ok self
  | _ => no_attribute "left_type"
  end.

(** The constructor call of [Tee]. *)
Definition Tee_init (self_id : N) (kw : kwargs) : M component :=
  let self0 b n :=
    Tee b n (Qty 0.848 "inch")
      (mkTeeAttrs "branch" None "stopper" None None) None None in
  self <- PipelineComponent_init self_id kw self0 ;;
  reading (fun _ => Tee_init_finish kw self).

(** The constructor of each class. *)
Definition construct (ty : pytype) : N -> kwargs -> M component :=
  match ty with
  | TPipe => Pipe_init
  | TElbow => Elbow_init
  | TTee => Tee_init
  end.

End Construction.

(** * pipeline.py: the remaining methods *)

Section OtherMethods.
Context `{Env}.

(** The loop of [Pipe.ID_SDR_all_available], over the sizes still to visit;
    [ID] is the list built so far ([ID.append(...magnitude)]). *)
Fixpoint ID_SDR_loop (self : component) (sizes : list Quantity) (SDR : Z)
    (ID : list Q) : component * list Q :=
  match sizes with
  | [] => (self, ID)
  | size_i :: rest =>
      let '(self, v) := Pipe_get_id_sdr self size_i SDR in
      ID_SDR_loop self rest SDR (ID ++ [magnitude v])
  end.

(** [Pipe.ID_SDR_all_available]: the object as the calls of [_get_id_sdr]
    leave it, and [ID * u.inch]. *)
Definition Pipe_ID_SDR_all_available (self : component) (SDR : Z)
  : component * list Quantity :=
  let '(self, ID) := ID_SDR_loop self AVAILABLE_SIZES SDR [] in
  (self, map (fun m => Qty m "inch") ID).

End OtherMethods.

(** What the printing methods take from outside the two files: the text of a
    quantity, and two columns of all the rows of [data/pipe_database.csv]. *)
Class Printing : Type := {
  format_quantity : Quantity -> string;
  pipe_database_NDinch : list Q;
  pipe_database_column_1 : list Q
}.

Definition newline : string := String (Ascii.ascii_of_nat 10) "".

Section PrintingMethods.
Context `{Env} `{Printing}.

(** The property [Pipe.od]: the second column of the row whose nominal
    diameter is nearest to the magnitude of [size]. *)
Definition Pipe_od (self : component) : result Quantity :=
  let! index :=
    argmin_abs_diff (map (fun x => Qty x "") pipe_database_NDinch)
      (Qty (magnitude (size (base_of self))) "") in
  match pipe_database_column_1 !! index with
  | Some v => Ok (Qty v "inch")
  | None => Raise (IndexError "single positional indexer is out-of-bounds")
  end.

(** [format_print] of [Pipe], [Elbow] and [Tee]. *)
Definition format_print (self : component) : result string :=
  match self with
  | Pipe b _ i p =>
      let! od := Pipe_od self in
      Ok ("Pipe: (OD: " ++ format_quantity od
          ++ ", Size: " ++ format_quantity (size b)
          ++ ", ID: " ++ format_quantity i
          ++ ", Length: " ++ format_quantity (length p)
          ++ ", Spec: " ++ spec p ++ ")")
  | Elbow b _ i a =>
      Ok ("Elbow: (Size: " ++ format_quantity (size b)
          ++ ", ID: " ++ format_quantity i
          ++ ", Angle: " ++ format_quantity a ++ ")")
  | Tee b _ i t _ _ =>
      match next_type t with
      | Some nt =>
          Ok ("Tee: (Size: " ++ format_quantity (size b)
              ++ ", ID: " ++ format_quantity i
              ++ ", Next Path Type: " ++ nt ++ ")")
      | None => no_attribute "next_type"
      end
  end.

(** [PipelineComponent.pprint]; [__str__] and [__repr__] return it. *)
Fixpoint pprint (self : component) : result string :=
  match next self with
  | None => format_print self
  | Some n =>
      let! line := format_print self in
      let! rest := pprint n in
      Ok (line ++ newline ++ rest)
  end.

End PrintingMethods.

(** * The vocabulary of the statements *)

(** The record an entry of [PlantInput.configs] refers to. *)
Definition record_of (s : store) (r : N) : PlantInput.t :=
  default (PlantInput.mk default_q default_temp) (heap s !! r).

(** Evaluate [f] on the elements of a list in order, stopping at the first
    exception. *)
Fixpoint traverse {A B} (f : A -> result B) (l : list A) : result (list B) :=
  match l with
  | [] => Ok []
  | a :: l' =>
      let! b := f a in
      let! bs := traverse f l' in
      Ok (b :: bs)
  end.

Definition setter_error : exn := AttributeError "can't set attribute".

Definition seed_error : exn :=
  AttributeError
    "Neither of the first two components inthis pipeline are Pipe objects.".

Global Instance exn_eq_dec : EqDecision exn.
Proof. solve_decision. Defined.

(** The computation raised exactly [e]. *)
Definition raises {A} (e : exn) (r : result A) : bool :=
  match r with
  | Raise e' => bool_decide (e' = e)
  | Ok _ => false
  end.

(** The components of a chain, first to last. *)
Fixpoint chain (self : component) : list component :=
  self ::
  match next self with
  | Some n => chain n
  | None => []
  end.

(** The component has an entry in [PlantInput.configs]. *)
Definition registered (s : store) (c : component) : Prop :=
  is_Some (configs s !! mem_loc (as_Component (base_of c))).

Global Instance registered_dec (s : store) (c : component) :
  Decision (registered s c).
Proof. unfold registered. apply _. Defined.

(** The first or the second component of the chain is a [Pipe]. *)
Definition seeded (self : component) : bool :=
  bool_decide (type_of self = TPipe)
  || match next self with
     | Some n => bool_decide (type_of n = TPipe)
     | None => false
     end.

Definition both_error : exn :=
  AttributeError
    "A PipelineComponent must be instantiated with either the size or inner diameter, but not both.".

Definition unexpected_keyword : exn :=
  TypeError "__init__() got an unexpected keyword argument".

(** Every keyword is [q] or [temp]. *)
Definition only_q_temp (kw : kwargs) : bool :=
  bool_decide (dom (kw_rest kw) ⊆ ({["q"; "temp"]} : gset string)).

(** Every entry of [PlantInput.configs] refers to a record that exists. *)
Definition store_wf (s : store) : Prop :=
  forall loc r, configs s !! loc = Some r -> is_Some (heap s !! r).

(** The first component of the chain without an entry, if any. *)
Definition first_unregistered (s : store) (self : component)
  : option component :=
  List.find (fun c => negb (bool_decide (registered s c))) (chain self).

(** The [Component] part of every component of a chain. *)
Definition components_of (self : component) : list Component :=
  (fun c => as_Component (base_of c)) <$> chain self.

(** [sep.join(lines)]. *)
Fixpoint join (sep : string) (lines : list string) : string :=
  match lines with
  | [] => ""
  | [l] => l
  | l :: ls => l ++ sep ++ join sep ls
  end.

Section Vocabulary.
Context `{Env}.

(** [h1 + (h2 + (... + hn))], as the recursion of [headloss_pipeline] nests
    the additions. *)
Fixpoint sum_right (h : Quantity) (hs : list Quantity) : Quantity :=
  match hs with
  | [] => h
  | h' :: hs' => qadd h (sum_right h' hs')
  end.

(** The formula that [headloss] evaluates, at the flow rate [q] that the
    component reads. *)
Definition headloss_at (self : component) (q : Quantity) : result Quantity :=
  match self with
  | Pipe b _ i p => headloss_fric q i (length p) (nu b) (pipe_rough p)
  | Elbow b _ i _ =>
      let! h := elbow_minor_loss q i (Some (k_minor b)) in Ok (qto h "m")
  | Tee b _ i t _ _ =>
      let k :=
        if String.eqb (left_type t) "stopper" then right_k_minor t
        else left_k_minor t in
      let! h := elbow_minor_loss q i k in Ok (qto h "m")
  end.

(** The first component of the chain whose [headloss] raises, if any. *)
Definition first_failing (s : store) (self : component) : option component :=
  List.find (fun c => negb (is_Ok (headloss c s))) (chain self).

(** The formula of every component of the chain that has an entry returns,
    at the flow rate that the component reads. *)
Definition formulas_return (s : store) (self : component) : Prop :=
  Forall (fun c => registered s c -> is_Ok (headloss c s) = true) (chain self).

(** The distance [abs(a - x)], as a rational. *)
Definition distance (x a : Quantity) : Q := Qabs (magnitude (qsub a x)).

(** The object a constructor returns when it returns. *)
Definition new_base (self_id : N) (k : Quantity) : base :=
  mkBase (mkComponent self_id) (get_available_size (Qty 0.5 "inch"))
    (viscosity_kinematic (Qty 20 "degC")) k.

Definition default_object (ty : pytype) (self_id : N) : component :=
  match ty with
  | TPipe =>
      Pipe (new_base self_id (Qty 0 "")) None (Qty 0.476 "inch")
        (mkPipeAttrs "sdr41" (Qty 1 "m") PVC_PIPE_ROUGH)
  | TElbow =>
      Elbow (new_base self_id EL90_K_MINOR) None (Qty 0.848 "inch")
        (Qty 90 "deg")
  | TTee =>
      Tee (new_base self_id (Qty 0 "")) None (Qty 0.848 "inch")
        (mkTeeAttrs "branch" (Some TEE_FLOW_BR_K_MINOR) "stopper" None
           (Some "branch"))
        None None
  end.

End Vocabulary.

(** * A concrete environment for evaluating the definitions

    Exact rational arithmetic that keeps the unit of the left operand, simple
    stand-ins for the formulas, which raise where the library checks the range
    of an argument, and a short catalogue. *)

Definition exact (f : Q -> Q -> Q) (a b : Quantity) : Quantity :=
  Qty (f (magnitude a) (magnitude b)) (units a).

Definition first_at_least (x : Quantity) (arr : list Quantity) : Quantity :=
  let fits a := Qle_bool (magnitude x) (magnitude a) in
  List.hd (List.hd x arr) (List.filter fits arr).

Definition inches (l : list Q) : list Quantity :=
  List.map (fun m => Qty m "inch") l.

Definition sample_env : Env := {|
  qadd := exact Qplus;
  qsub := exact Qminus;
  qmul := exact Qmult;
  qdiv := exact Qdiv;
  qto a u := Qty (magnitude a) u;
  qto_same a := match a with Qty _ _ => eq_refl end;
  viscosity_kinematic _ := Qty 0.000001 "m**2/s";
  flow_pipe i h l n r k :=
    if Qle_bool 0 (magnitude h)
    then Ok (Qty (magnitude h * magnitude i) "m**3/s")
    else Raise (ValueError "Headloss due to friction is out of bounds.");
  headloss_fric q i l n r :=
    if Qle_bool (magnitude q) 0
    then Raise (ValueError "Flow rate is out of bounds.")
    else Ok (Qty (magnitude q * magnitude l) "m");
  elbow_minor_loss q i k :=
    match k with
    | Some k' => Ok (Qty (magnitude q * magnitude k') "m")
    | None => Raise (TypeError "unsupported operand type(s): NoneType")
    end;
  PVC_PIPE_ROUGH := Qty 0.12 "mm";
  EL45_K_MINOR := Qty 0.45 "";
  EL90_K_MINOR := Qty 0.9 "";
  TEE_FLOW_BR_K_MINOR := Qty 1.8 "";
  TEE_FLOW_RUN_K_MINOR := Qty 0.6 "";
  ceil_nearest := first_at_least;
  AVAILABLE_SIZES := inches [0.5; 1; 2; 3]%Q;
  AVAILABLE_IDS_SCH40 := inches [0.622; 1.049; 2.067; 3.068]%Q;
  AVAILABLE_FITTING_SIZES := inches [0.5; 1; 2; 3]%Q;
  AVAILABLE_FITTING_IDS := inches [0.848; 1.325; 2.386; 3.505]%Q
|}.

Definition empty_store : store := mkStore ∅ ∅.

Definition no_kwargs : kwargs := mkKwargs None None ∅.

(** A few rows for the printing methods; a quantity is shown by its unit. *)
Definition sample_printing : Printing := {|
  format_quantity a := units a;
  pipe_database_NDinch := [0.5; 1; 2; 3]%Q;
  pipe_database_column_1 := [0.84; 1.315; 2.375; 3.5]%Q
|}.

Section Samples.
#[local] Existing Instance sample_env.

Definition registered_store : store :=
  snd (Component_init 1 (Qty 35 "L/s") default_temp empty_store).

(** [Pipe()], [Elbow()] and a second [Pipe()], at the addresses 1, 2 and 3. *)
Definition three_components : store :=
  snd (Pipe_init 3 no_kwargs
         (snd (Elbow_init 2 no_kwargs
                 (snd (Pipe_init 1 no_kwargs empty_store))))).

Definition sample_pipe (self_id : N) : component := default_object TPipe self_id.
Definition sample_elbow : component := default_object TElbow 2.

(** [p1.next = e; e.next = p3]. *)
Definition pipe_elbow_pipe : component :=
  set_next (sample_pipe 1)
    (Some (set_next sample_elbow (Some (sample_pipe 3)))).

(** [p1.next = p3]. *)
Definition pipe_pipe : component :=
  set_next (sample_pipe 1) (Some (sample_pipe 3)).

(** [t = Tee(); t.next = e]. *)
Definition tee_elbow : component :=
  set_next (default_object TTee 4) (Some sample_elbow).

(** The store after [Pipe(q = 0 * u.L / u.s)], at the address 1. *)
Definition still_water : store :=
  snd (Pipe_init 1 (mkKwargs (Some (Qty 0 "L/s")) None ∅) empty_store).

(** Two components, at the addresses 1 and 2, each with a record of its own. *)
Definition two_parents : store :=
  snd (Component_init 2 (Qty 7 "L/s") default_temp registered_store).

End Samples.

(** * Properties *)

(** ** The shared configuration registry *)

Lemma Component_q_registered (self : Component) (s : store) (r : N) :
  configs s !! mem_loc self = Some r ->
  Component_q self s = Ok (PlantInput.q (record_of s r)).
Proof. intros E. unfold Component_q, configs_getitem. by rewrite E. Qed.

Lemma Component_temp_registered (self : Component) (s : store) (r : N) :
  configs s !! mem_loc self = Some r ->
  Component_temp self s = Ok (PlantInput.temp (record_of s r)).
Proof. intros E. unfold Component_temp, configs_getitem. by rewrite E. Qed.

Lemma Component_q_unregistered (self : Component) (s : store) :
  configs s !! mem_loc self = None ->
  Component_q self s = Raise (KeyError (mem_loc self)).
Proof. intros E. unfold Component_q, configs_getitem. by rewrite E. Qed.

Lemma Component_temp_unregistered (self : Component) (s : store) :
  configs s !! mem_loc self = None ->
  Component_temp self s = Raise (KeyError (mem_loc self)).
Proof. intros E. unfold Component_temp, configs_getitem. by rewrite E. Qed.

(** Assigning [q] on the record of [loc] is seen by every component whose
    entry is that same record. *)
Lemma configs_set_q_seen (loc : N) (v : Quantity) (s : store) (r : N)
    (other : Component) :
  configs s !! loc = Some r ->
  configs s !! mem_loc other = Some r ->
  configs_set_q loc v s =
    (Ok tt,
     mkStore (configs s)
       (<[r := PlantInput.mk v (PlantInput.temp (record_of s r))]> (heap s)))
  /\ Component_q other (snd (configs_set_q loc v s)) = Ok v.
Proof.
  intros E1 E2. unfold configs_set_q. rewrite E1. split; [done|].
  cbn. unfold Component_q, configs_getitem. cbn. rewrite E2. cbn.
  by rewrite lookup_insert_eq.
Qed.

(** What [propogate_config] leaves in the dictionary when the parent has an
    entry: the parent's record under every child, the other entries and all
    records as they were. *)
Lemma propogate_config_registered (self : Component)
    (subcomponents : list Component) (s : store) (r : N) :
  configs s !! mem_loc self = Some r ->
  exists s',
    propogate_config self subcomponents s = (Ok tt, s')
    /\ heap s' = heap s
    /\ forall loc,
         configs s' !! loc =
           if bool_decide (loc ∈ mem_loc <$> subcomponents) then Some r
           else configs s !! loc.
Proof.
  revert s. induction subcomponents as [|sub rest IH]; intros s E.
  - by exists s.
  - cbn [propogate_config]. rewrite E.
    set (s1 := mkStore (<[mem_loc sub := r]> (configs s)) (heap s)).
    destruct (IH s1) as (s' & Hrun & Hheap & Hcfg).
    { subst s1. cbn. destruct (decide (mem_loc sub = mem_loc self)) as [->|Hne].
      - apply lookup_insert_eq.
      - by rewrite lookup_insert_ne. }
    exists s'. split; [done|]. split; [done|].
    intros loc. rewrite Hcfg. subst s1. cbn.
    destruct (decide (loc ∈ mem_loc <$> rest)) as [Hin|Hnin].
    + rewrite bool_decide_eq_true_2 by done.
      rewrite bool_decide_eq_true_2; [done|]. cbn. apply elem_of_cons. by right.
    + rewrite (bool_decide_eq_false_2 _ Hnin).
      destruct (decide (loc = mem_loc sub)) as [->|Hne].
      * rewrite lookup_insert_eq.
        rewrite bool_decide_eq_true_2; [done|]. cbn. apply elem_of_cons. by left.
      * rewrite lookup_insert_ne by done.
        rewrite bool_decide_eq_false_2; [done|].
        intros Hc. apply elem_of_cons in Hc as [?|?]; done.
Qed.

(** C3. After [propogate_config], the entry of each child is the very record
    of the parent (the same reference, whether or not the child had an entry
    before); reading [q] or [temp] on the child gives the parent's value, and
    a later assignment to the [q] of the parent's record is read back through
    the child. *)
Theorem propogate_config_shares_record (parent : Component)
    (children : list Component) (s : store) (r : N) :
  configs s !! mem_loc parent = Some r ->
  exists s',
    propogate_config parent children s = (Ok tt, s')
    /\ configs s' !! mem_loc parent = Some r
    /\ forall child, child ∈ children ->
         configs s' !! mem_loc child = configs s' !! mem_loc parent
         /\ Component_q child s' = Component_q parent s'
         /\ Component_temp child s' = Component_temp parent s'
         /\ forall v,
              let s'' := snd (configs_set_q (mem_loc parent) v s') in
              Component_q parent s'' = Ok v /\ Component_q child s'' = Ok v.
Proof.
  intros E.
  destruct (propogate_config_registered parent children s r E)
    as (s' & Hrun & _ & Hcfg).
  assert (Hp : configs s' !! mem_loc parent = Some r).
  { rewrite Hcfg. by case_bool_decide. }
  exists s'. split; [done|]. split; [done|].
  intros child Hin.
  assert (Hc : configs s' !! mem_loc child = Some r).
  { rewrite Hcfg. rewrite bool_decide_eq_true_2; [done|].
    by apply list_elem_of_fmap_2. }
  split; [by rewrite Hp, Hc|].
  split; [by rewrite !(Component_q_registered _ _ r)|].
  split; [by rewrite !(Component_temp_registered _ _ r)|].
  intros v s''. subst s''. split.
  - by apply (configs_set_q_seen _ v s' r parent).
  - by apply (configs_set_q_seen _ v s' r child).
Qed.

(** What [Component.__init__] leaves behind: an entry for the new object, with
    a new record when the address had none. *)
Lemma Component_init_registers (self_id : N) (q temp : Quantity) (s : store) :
  exists s',
    Component_init self_id q temp s = (Ok (mkComponent self_id), s')
    /\ match configs s !! self_id with
       | Some r => s' = s
       | None =>
           exists r, heap s !! r = None
             /\ configs s' = <[self_id := r]> (configs s)
             /\ heap s' = <[r := PlantInput.mk q temp]> (heap s)
       end.
Proof.
  unfold Component_init. cbn.
  destruct (configs s !! self_id) as [r|] eqn:E.
  - by exists s.
  - eexists. split; [done|]. exists (fresh (dom (heap s))). cbn.
    split; [|done]. apply not_elem_of_dom, is_fresh.
Qed.

Lemma Component_init_is_registered (self_id : N) (q temp : Quantity)
    (s : store) :
  is_Some (configs (snd (Component_init self_id q temp s)) !! self_id).
Proof.
  destruct (Component_init_registers self_id q temp s) as (s' & -> & Hs').
  cbn. destruct (configs s !! self_id) as [r|] eqn:E.
  - subst s'. by rewrite E.
  - destruct Hs' as (r & _ & -> & _). rewrite lookup_insert_eq. by eexists.
Qed.

(** C8. [q] and [temp] are read through the entry of the component in
    [PlantInput.configs]: with an entry, they give the fields of the record it
    refers to, and follow an assignment to that record; without one, both
    raise a [KeyError], a [LookupError].  The object itself stores only
    [mem_loc]: a component built at an address that already has an entry reads
    the record of that entry, not the arguments of its constructor. *)
Theorem q_temp_resolve_through_configs (self : Component) (s : store)
    (q temp : Quantity) :
  match configs s !! mem_loc self with
  | Some r =>
      Component_q self s = Ok (PlantInput.q (record_of s r))
      /\ Component_temp self s = Ok (PlantInput.temp (record_of s r))
      /\ (forall v,
            Component_q self (snd (configs_set_q (mem_loc self) v s)) = Ok v)
      /\ (let '(res, s') := Component_init (mem_loc self) q temp s in
          res = Ok self
          /\ Component_q self s' = Ok (PlantInput.q (record_of s r))
          /\ Component_temp self s' = Ok (PlantInput.temp (record_of s r)))
  | None =>
      (exists e,
         is_LookupError e = true
         /\ Component_q self s = Raise e
         /\ Component_temp self s = Raise e)
      /\ (let '(res, s') := Component_init (mem_loc self) q temp s in
          res = Ok self
          /\ Component_q self s' = Ok q
          /\ Component_temp self s' = Ok temp)
  end.
Proof.
  destruct self as [loc]. cbn [mem_loc].
  destruct (configs s !! loc) as [r|] eqn:E.
  - split; [by apply Component_q_registered|].
    split; [by apply Component_temp_registered|].
    split.
    + intros v. by apply (configs_set_q_seen loc v s r (mkComponent loc)).
    + unfold Component_init. cbn. rewrite E.
      split; [done|].
      split; [by apply Component_q_registered
             |by apply Component_temp_registered].
  - split.
    + exists (KeyError loc). split; [done|].
      split; [by apply Component_q_unregistered
             |by apply Component_temp_unregistered].
    + unfold Component_init. cbn. rewrite E.
      split; [done|].
      unfold Component_q, Component_temp, configs_getitem. cbn.
      by rewrite !lookup_insert_eq.
Qed.

(** ** Aggregate head loss *)

(** Induction along the [next] links of a chain. *)
Lemma component_next_ind (P : component -> Prop) :
  (forall c, next c = None -> P c) ->
  (forall c n, next c = Some n -> P n -> P c) ->
  forall c, P c.
Proof.
  intros Hlast Hlink. fix IH 1. intros c.
  destruct (next c) as [n|] eqn:E.
  - apply (Hlink c n E), IH.
  - apply Hlast, E.
Qed.

Lemma chain_unfold (self : component) :
  chain self =
    self :: match next self with Some n => chain n | None => [] end.
Proof. by destruct self. Qed.

Section Headloss.
Context `{Env}.

Lemma headloss_pipeline_unfold (self : component) (s : store) :
  headloss_pipeline self s =
    match next self with
    | None => headloss self s
    | Some n =>
        let! h := headloss self s in
        let! rest := headloss_pipeline n s in
        Ok (qadd h rest)
    end.
Proof. by destruct self. Qed.

Lemma headloss_pipeline_traverse (self : component) (s : store) :
  headloss_pipeline self s =
    let! h := headloss self s in
    let! hs :=
      traverse (fun c => headloss c s)
        (match next self with Some n => chain n | None => [] end) in
    Ok (sum_right h hs).
Proof.
  induction self as [c E|c n E IH] using component_next_ind;
    rewrite headloss_pipeline_unfold, E.
  - cbn. by destruct (headloss c s).
  - rewrite IH. rewrite (chain_unfold n). cbn [traverse].
    destruct (headloss c s) as [h|e]; [|done]. cbn [rbind].
    destruct (headloss n s) as [h'|e]; [|done]. cbn [rbind].
    by destruct (traverse _ _).
Qed.

(** C2. [headloss_pipeline] is the sum of the [headloss] of every component of
    the chain, each evaluated on its own, first to last (the first exception,
    if any, is the one raised); for a component without [next] it is the
    [headloss] of that component; for a pipe, an elbow and a pipe it is
    [h1 + (h2 + h3)]. *)
Theorem headloss_pipeline_is_sum (self : component) (s : store) :
  headloss_pipeline self s =
    (let! h := headloss self s in
     let! hs := traverse (fun c => headloss c s) (tail (chain self)) in
     Ok (sum_right h hs))
  /\ headloss_pipeline (set_next self None) s = headloss (set_next self None) s
  /\ forall b1 i1 p1 b2 i2 a2 b3 i3 p3,
       let c3 := Pipe b3 None i3 p3 in
       let c2 := Elbow b2 (Some c3) i2 a2 in
       let c1 := Pipe b1 (Some c2) i1 p1 in
       headloss_pipeline c1 s =
         let! h1 := headloss c1 s in
         let! h2 := headloss c2 s in
         let! h3 := headloss c3 s in
         Ok (qadd h1 (qadd h2 h3)).
Proof.
  split; [|split].
  - rewrite headloss_pipeline_traverse. by rewrite (chain_unfold self).
  - rewrite headloss_pipeline_unfold. by destruct self.
  - intros. subst c1 c2 c3.
    do 3 (rewrite headloss_pipeline_unfold; cbn [next]).
    destruct (headloss (Pipe b1 _ i1 p1) s) as [h1|e]; [|done]. cbn [rbind].
    destruct (headloss (Elbow b2 _ i2 a2) s) as [h2|e]; [|done]. cbn [rbind].
    by destruct (headloss (Pipe b3 None i3 p3) s).
Qed.

End Headloss.

(** ** Assigning the flow rate, and the flow solver *)

Section Solver.
Context `{Env}.

Lemma set_next_components_q_unfold (self : component) :
  set_next_components_q self =
    match next self with
    | Some n =>
        v <- reading (Component_q (as_Component (base_of self))) ;;
        Component_set_q (as_Component (base_of n)) v ;;;
        set_next_components_q n
    | None => ret tt
    end.
Proof. by destruct self. Qed.

Lemma set_next_components_q_raises (self n : component) (s : store) :
  next self = Some n ->
  registered s self ->
  set_next_components_q self s = (Raise setter_error, s).
Proof.
  intros E [r Hr]. rewrite set_next_components_q_unfold, E.
  unfold bind, reading. by rewrite (Component_q_registered _ _ r Hr).
Qed.

(** [headloss] reads [q] and evaluates the formula of the class on it. *)
Lemma headloss_formula (c : component) (s : store) :
  headloss c s =
    let! q := Component_q (as_Component (base_of c)) s in headloss_at c q.
Proof.
  destruct c as [b n i p|b n i a|b n i t l r]; cbn; [done|done|].
  by destruct (String.eqb _ _).
Qed.

Lemma headloss_Ok_registered (c : component) (s : store) (h : Quantity) :
  headloss c s = Ok h -> registered s c.
Proof.
  rewrite headloss_formula. unfold registered, Component_q, configs_getitem.
  by destruct (configs s !! _).
Qed.

Lemma headloss_pipeline_Ok_registered (self : component) (s : store)
    (h : Quantity) :
  headloss_pipeline self s = Ok h -> Forall (registered s) (chain self).
Proof.
  revert h. induction self as [c E|c n E IH] using component_next_ind;
    intros h; rewrite chain_unfold, headloss_pipeline_unfold, E.
  - intros Hh. apply Forall_cons. split; [|done].
    by apply (headloss_Ok_registered c s h).
  - destruct (headloss c s) as [h1|e] eqn:E1; [|done]. cbn [rbind].
    destruct (headloss_pipeline n s) as [h2|e]; [|done]. intros _.
    apply Forall_cons. split; [by apply (headloss_Ok_registered c s h1)|].
    by apply (IH h2).
Qed.

Lemma flow_seed_unseeded (self : component) (target_headloss : Quantity) :
  seeded self = false -> flow_seed self target_headloss = Raise seed_error.
Proof.
  unfold seeded, flow_seed. intros Hs.
  destruct self as [b n i p|b n i a|b n i t l r]; cbn in *; try done;
    by destruct n as [[]|].
Qed.

Lemma flow_seed_Ok_seeded (self : component) (target_headloss flow : Quantity) :
  flow_seed self target_headloss = Ok flow -> seeded self = true.
Proof.
  intros Hflow. destruct (seeded self) eqn:Hs; [done|].
  by rewrite (flow_seed_unseeded self target_headloss Hs) in Hflow.
Qed.

(** [abs(1.0) > 0.01]: the loop is entered. *)
Lemma loop_condition_initially :
  qgtb (qabs (Qty 1.0 "")) (Qty 0.01 "") = true.
Proof.
  unfold qgtb.
  by rewrite (qto_same (Qty 0.01 "")).
Qed.

Lemma flow_loop_first_iteration (fuel : nat) (self : component)
    (target_headloss flow headloss : Quantity) (s : store) :
  flow_loop (S fuel) self target_headloss (Qty 1.0 "") flow headloss s =
    (Raise setter_error, s).
Proof. cbn [flow_loop]. by rewrite loop_condition_initially. Qed.

Lemma flow_loop_no_fuel (self : component)
    (target_headloss flow headloss : Quantity) (s : store) :
  flow_loop 0 self target_headloss (Qty 1.0 "") flow headloss s = (Ok None, s).
Proof. cbn [flow_loop]. by rewrite loop_condition_initially. Qed.

Lemma flow_pipeline_seed_fails (fuel : nat) (self : component)
    (target_headloss : Quantity) (s : store) (e : exn) :
  flow_seed self target_headloss = Raise e ->
  flow_pipeline fuel self target_headloss s = (Raise e, s).
Proof. intros E. unfold flow_pipeline, bind, reading. by rewrite E. Qed.

(** What [flow_pipeline] does when its loop may run: the exception of the seed
    flow, or else that of the initial head loss, or else that of the
    assignment [self.q = flow]; the store is left as it was. *)
Lemma flow_pipeline_outcome (fuel : nat) (self : component)
    (target_headloss : Quantity) (s : store) :
  flow_pipeline (S fuel) self target_headloss s =
    (let! _ := flow_seed self target_headloss in
     let! _ := headloss_pipeline self s in
     Raise setter_error, s).
Proof.
  unfold flow_pipeline, bind, reading.
  destruct (flow_seed self target_headloss) as [flow|e]; [|done].
  destruct (headloss_pipeline self s) as [h|e]; [|done].
  apply flow_loop_first_iteration.
Qed.

Lemma flow_pipeline_first_iteration (fuel : nat) (self : component)
    (target_headloss flow h : Quantity) (s : store) :
  flow_seed self target_headloss = Ok flow ->
  headloss_pipeline self s = Ok h ->
  flow_pipeline (S fuel) self target_headloss s = (Raise setter_error, s).
Proof. intros Hflow Hh. by rewrite flow_pipeline_outcome, Hflow, Hh. Qed.

Lemma flow_pipeline_never_returns (fuel : nat) (self : component)
    (target_headloss : Quantity) (s : store) :
  fst (flow_pipeline fuel self target_headloss s) = Ok None
  \/ exists e, fst (flow_pipeline fuel self target_headloss s) = Raise e.
Proof.
  unfold flow_pipeline, bind, reading.
  destruct (flow_seed self target_headloss) as [flow|e]; [|right; by eexists].
  destruct (headloss_pipeline self s) as [h|e]; [|right; by eexists].
  destruct fuel as [|fuel].
  - left. by rewrite flow_loop_no_fuel.
  - right. rewrite flow_loop_first_iteration. by eexists.
Qed.

Lemma flow_pipeline_store (fuel : nat) (self : component)
    (target_headloss : Quantity) (s : store) :
  snd (flow_pipeline fuel self target_headloss s) = s.
Proof.
  unfold flow_pipeline, bind, reading.
  destruct (flow_seed self target_headloss) as [flow|e]; [|done].
  destruct (headloss_pipeline self s) as [h|e]; [|done].
  destruct fuel as [|fuel].
  - by rewrite flow_loop_no_fuel.
  - by rewrite flow_loop_first_iteration.
Qed.

End Solver.

(** ** Construction *)

Lemma only_q_temp_spec (kw : kwargs) :
  only_q_temp kw = true <->
  forall key, kw_in key kw = true -> key = "q" \/ key = "temp".
Proof.
  unfold only_q_temp. rewrite bool_decide_eq_true. split.
  - intros Hsub key Hin. unfold kw_in in Hin.
    destruct (String.eqb key "q") eqn:Eq; [left; by apply String.eqb_eq|].
    destruct (String.eqb key "temp") eqn:Et; [right; by apply String.eqb_eq|].
    apply bool_decide_eq_true in Hin. apply elem_of_dom in Hin.
    apply Hsub in Hin. set_solver.
  - intros Hall key Hin. apply elem_of_dom in Hin.
    destruct (String.eqb key "q") eqn:Eq;
      [apply String.eqb_eq in Eq; set_solver|].
    destruct (String.eqb key "temp") eqn:Et;
      [apply String.eqb_eq in Et; set_solver|].
    destruct (Hall key) as [->| ->]; [|set_solver..].
    unfold kw_in. rewrite Eq, Et. by apply bool_decide_eq_true.
Qed.

Lemma kw_in_other (key : string) (kw : kwargs) :
  key <> "q" -> key <> "temp" -> kw_in key kw = true -> only_q_temp kw = false.
Proof.
  intros Hq Ht Hin. destruct (only_q_temp kw) eqn:E; [|done].
  destruct (proj1 (only_q_temp_spec kw) E key Hin); done.
Qed.

Section ConstructionProperties.
Context `{Env}.

Lemma Component_call_cases (self_id : N) (kw : kwargs) (s : store) :
  Component_call self_id kw s =
    if only_q_temp kw then
      (Ok (mkComponent self_id),
       snd (Component_init self_id (default default_q (kw_q kw))
              (default default_temp (kw_temp kw)) s))
    else (Raise unexpected_keyword, s).
Proof.
  unfold Component_call, only_q_temp. case_bool_decide; [|done].
  by destruct (Component_init_registers self_id (default default_q (kw_q kw))
                 (default default_temp (kw_temp kw)) s) as (s' & -> & _).
Qed.

Lemma angle_90_is_not_45 : qeqb (Qty 90 "deg") (Qty 45 "deg") = false.
Proof. unfold qeqb. by rewrite (qto_same (Qty 45 "deg")). Qed.

Lemma angle_90_is_90 : qeqb (Qty 90 "deg") (Qty 90 "deg") = true.
Proof. unfold qeqb. by rewrite (qto_same (Qty 90 "deg")). Qed.

(** The three outcomes of a constructor call. *)
Lemma construct_cases (ty : pytype) (self_id : N) (kw : kwargs) (s : store) :
  construct ty self_id kw s =
    if kw_in "size" kw && kw_in "id" kw then (Raise both_error, s)
    else if only_q_temp kw then
      (Ok (default_object ty self_id),
       snd (Component_init self_id (default default_q (kw_q kw))
              (default default_temp (kw_temp kw)) s))
    else (Raise unexpected_keyword, s).
Proof.
  destruct ty; cbn [construct];
    unfold Pipe_init, Elbow_init, Tee_init, PipelineComponent_init;
    (destruct (kw_in "size" kw && kw_in "id" kw) eqn:Eboth; [done|]);
    unfold bind at 1 2; rewrite Component_call_cases;
    (destruct (only_q_temp kw) eqn:Eonly; [|done]);
    assert (Hsize : kw_in "size" kw = false)
      by (destruct (kw_in "size" kw) eqn:E; [|done];
          by rewrite (kw_in_other "size" kw) in Eonly);
    assert (Hid : kw_in "id" kw = false)
      by (destruct (kw_in "id" kw) eqn:E; [|done];
          by rewrite (kw_in_other "id" kw) in Eonly).
  - cbn -[kw_in]. unfold Pipe_init_finish. cbn -[kw_in].
    by rewrite Hsize, Hid.
  - cbn -[kw_in]. unfold Elbow_init_finish. cbn -[kw_in].
    rewrite angle_90_is_not_45, angle_90_is_90. cbn -[kw_in].
    by rewrite Hsize, Hid.
  - cbn -[kw_in]. unfold Tee_init_finish. cbn -[kw_in].
    by rewrite Hsize, Hid.
Qed.

End ConstructionProperties.

Section ClaimsOnConstruction.
Context `{Env}.

(** What [Tee._rep_ok] does on the attributes it is given. *)
Lemma Tee_rep_ok_stoppers (b : base) (n : option component) (t : tee_attrs) :
  count [left_type t; right_type t] "stopper" <> 1%nat ->
  Tee_rep_ok b n t = Raise (ValueError "All tees must have one stopper.").
Proof.
  intros Hc. unfold Tee_rep_ok.
  by rewrite (proj2 (Nat.eqb_neq _ _) Hc).
Qed.

Lemma Tee_rep_ok_fitting (b : base) (n : component) (t : tee_attrs) :
  type_of n ∈ [TElbow; TTee] ->
  exists msg, Tee_rep_ok b (Some n) t = Raise (ValueError msg).
Proof.
  intros Hn. unfold Tee_rep_ok.
  repeat (destruct (negb _); [by eexists|]).
  destruct (qneb _ _); [by eexists|].
  rewrite (bool_decide_eq_true_2 _ Hn). by eexists.
Qed.


(** C4. For [Pipe], [Elbow] and [Tee] alike, a constructor call that passes
    both [size] and [id] raises the [AttributeError] of the first statement of
    [PipelineComponent.__init__] (the spec's InvalidConfiguration) and leaves
    the store as it was; a call that passes at most one of the two does not
    raise that error. *)
Theorem size_and_id_both_rejected (ty : pytype) (self_id : N) (kw : kwargs)
    (s : store) :
  if kw_in "size" kw && kw_in "id" kw
  then construct ty self_id kw s = (Raise both_error, s)
  else raises both_error (fst (construct ty self_id kw s)) = false.
Proof.
  rewrite construct_cases.
  destruct (kw_in "size" kw && kw_in "id" kw); [done|].
  by destruct (only_q_temp kw).
Qed.

(** C9. A constructor call of any of the three classes that passes a keyword
    other than [q] and [temp], and not both [size] and [id], raises the
    [TypeError] of the call of [Component.__init__]; whenever a constructor
    call returns, every keyword was [q] or [temp] and the attributes of the
    object have their default values. *)
Theorem other_keywords_raise_TypeError (ty : pytype) (self_id : N)
    (kw : kwargs) (s : store) (key : string) :
  key <> "q" -> key <> "temp" -> kw_in key kw = true ->
  kw_in "size" kw && kw_in "id" kw = false ->
  construct ty self_id kw s = (Raise unexpected_keyword, s)
  /\ is_TypeError unexpected_keyword = true
  /\ forall ty' self_id' kw' s0 o s',
       construct ty' self_id' kw' s0 = (Ok o, s') ->
       o = default_object ty' self_id'
       /\ forall key', kw_in key' kw' = true -> key' = "q" \/ key' = "temp".
Proof.
  intros Hq Ht Hin Hboth. split; [|split; [done|]].
  - rewrite construct_cases, Hboth. by rewrite (kw_in_other key kw).
  - intros ty' self_id' kw' s0 o s'. rewrite construct_cases.
    destruct (kw_in "size" kw' && kw_in "id" kw'); [done|].
    destruct (only_q_temp kw') eqn:E; [|done].
    intros Heq. injection Heq as Ho _. subst o.
    split; [done|]. by apply only_q_temp_spec.
Qed.

(** C5, as the code has it.  For a component with a [next]: [_rep_ok] raises
    the [TypeError] of the adjacency rules (the spec's StructuralError) when a
    [Pipe] is followed by something that is neither an [Elbow] nor a [Tee], in
    particular by a [Pipe], and when an [Elbow] is followed by something that
    is not a [Pipe]; when both rules are met the method of the base class
    passes, and it is the method that runs for a [Pipe] and for an [Elbow],
    which therefore pass validation.  A [Tee] runs its own [_rep_ok] instead:
    followed by an [Elbow] or a [Tee] it meets both rules and yet fails
    validation, with a [ValueError]. *)
Theorem adjacency_validation (self n : component) :
  next self = Some n ->
  (type_of self = TPipe -> type_of n ∉ [TElbow; TTee] ->
   rep_ok self = Raise (TypeError "Pipes must be connected with fittings."))
  /\ (type_of self = TPipe -> type_of n = TPipe ->
      rep_ok self = Raise (TypeError "Pipes must be connected with fittings."))
  /\ (type_of self = TElbow -> type_of n <> TPipe ->
      rep_ok self = Raise (TypeError "Fittings must be followed by pipes."))
  /\ ((type_of self = TPipe -> type_of n ∈ [TElbow; TTee]) ->
      (type_of self = TElbow -> type_of n = TPipe) ->
      PipelineComponent_rep_ok self = Ok tt)
  /\ (type_of self <> TTee -> rep_ok self = PipelineComponent_rep_ok self)
  /\ (type_of self <> TTee ->
      (type_of self = TPipe -> type_of n ∈ [TElbow; TTee]) ->
      (type_of self = TElbow -> type_of n = TPipe) ->
      rep_ok self = Ok tt)
  /\ (type_of self = TTee -> type_of n ∈ [TElbow; TTee] ->
      PipelineComponent_rep_ok self = Ok tt
      /\ exists msg, rep_ok self = Raise (ValueError msg)).
Proof.
  intros E.
  assert (Hbase :
    (type_of self = TPipe -> type_of n ∈ [TElbow; TTee]) ->
    (type_of self = TElbow -> type_of n = TPipe) ->
    PipelineComponent_rep_ok self = Ok tt).
  { intros Hp He. unfold PipelineComponent_rep_ok. rewrite E.
    destruct (type_of self) eqn:Es; cbn.
    - by rewrite (bool_decide_eq_true_2 _ (Hp eq_refl)).
    - by rewrite (He eq_refl).
    - done. }
  assert (Hdispatch :
    type_of self <> TTee -> rep_ok self = PipelineComponent_rep_ok self)
    by (intros Hs; by destruct self).
  split; [|split; [|split; [|split; [|split; [|split]]]]].
  - intros Hs Hn. rewrite Hdispatch by (by rewrite Hs).
    unfold PipelineComponent_rep_ok. rewrite E, Hs. cbn.
    by rewrite (bool_decide_eq_false_2 _ Hn).
  - intros Hs Hn. rewrite Hdispatch by (by rewrite Hs).
    unfold PipelineComponent_rep_ok. by rewrite E, Hs, Hn.
  - intros Hs Hn. rewrite Hdispatch by (by rewrite Hs).
    unfold PipelineComponent_rep_ok. rewrite E, Hs. cbn.
    by destruct (type_of n).
  - exact Hbase.
  - exact Hdispatch.
  - intros Hs Hp He. rewrite (Hdispatch Hs). by apply Hbase.
  - intros Hs Hn. split.
    + apply Hbase; intros Hc; by rewrite Hs in Hc.
    + destruct self as [| |b m j t l r]; try done. cbn in E. subst m.
      cbn [rep_ok]. by apply Tee_rep_ok_fitting.
Qed.

End ClaimsOnConstruction.

Section ClaimsOnSolver.
Context `{Env}.

Lemma default_object_registered (ty : pytype) (self_id : N) (q temp : Quantity)
    (s : store) :
  registered (snd (Component_init self_id q temp s)) (default_object ty self_id).
Proof. destruct ty; apply Component_init_is_registered. Qed.

(** C1, on the code.  The constructor call of [Pipe] without arguments
    returns the default pipe, registered.  On it, for every target head loss,
    [flow_pipeline] returns no flow rate, whatever the number of iterations
    allowed: it raises what [pc.flow_pipe] raises for the seed flow, or else
    what [pc.headloss_fric] raises for the initial head loss, and when both
    return, as they do for a positive target and a positive flow, it reaches
    the assignment [self.q = flow] of the first iteration and raises the
    [AttributeError] of a property without setter. *)
Theorem flow_pipeline_default_pipe_raises (self_id : N) (s0 : store)
    (target_headloss : Quantity) (fuel : nat) :
  let pipe := default_object TPipe self_id in
  let s := snd (Pipe_init self_id no_kwargs s0) in
  let nu20 := viscosity_kinematic (Qty 20 "degC") in
  fst (Pipe_init self_id no_kwargs s0) = Ok pipe
  /\ seeded pipe = true
  /\ (exists q,
        Component_q (mkComponent self_id) s = Ok q
        /\ flow_pipeline (S fuel) pipe target_headloss s =
             (let! _ :=
                flow_pipe (Qty 0.476 "inch") target_headloss (Qty 1 "m") nu20
                  PVC_PIPE_ROUGH (Qty 0 "") in
              let! _ :=
                headloss_fric q (Qty 0.476 "inch") (Qty 1 "m") nu20
                  PVC_PIPE_ROUGH in
              Raise setter_error, s))
  /\ (forall flow h,
        flow_seed pipe target_headloss = Ok flow ->
        headloss_pipeline pipe s = Ok h ->
        flow_pipeline (S fuel) pipe target_headloss s = (Raise setter_error, s))
  /\ is_AttributeError setter_error = true
  /\ forall fuel' flow,
       fst (flow_pipeline fuel' pipe target_headloss s) <> Ok (Some flow).
Proof.
  intros pipe s nu20. subst pipe s nu20.
  change (Pipe_init self_id no_kwargs s0) with
    (construct TPipe self_id no_kwargs s0).
  rewrite construct_cases.
  change (kw_in "size" no_kwargs && kw_in "id" no_kwargs) with false.
  change (only_q_temp no_kwargs) with true. cbn [fst snd].
  split; [done|]. split; [done|]. split; [|split; [|split; [done|]]].
  - destruct (default_object_registered TPipe self_id
                (default default_q (kw_q no_kwargs))
                (default default_temp (kw_temp no_kwargs)) s0) as [r Hr].
    cbn [default_object base_of as_Component new_base] in Hr.
    eexists. split; [by apply (Component_q_registered _ _ r)|].
    rewrite flow_pipeline_outcome. unfold flow_seed.
    cbn [default_object type_of].
    rewrite bool_decide_eq_true_2 by done.
    cbn [getattr_id getattr_length getattr_nu getattr_pipe_rough
         getattr_k_minor rbind id base_of new_base nu k_minor length
         pipe_rough headloss_pipeline next headloss as_Component].
    by rewrite (Component_q_registered _ _ r Hr).
  - intros flow h. apply flow_pipeline_first_iteration.
  - intros fuel' flow Hflow.
    destruct (flow_pipeline_never_returns fuel' (default_object TPipe self_id)
                target_headloss
                (snd (Component_init self_id (default default_q (kw_q no_kwargs))
                        (default default_temp (kw_temp no_kwargs)) s0)))
      as [E|[e E]]; by rewrite E in Hflow.
Qed.

(** C10, as the code has it.  Assigning [q] raises an [AttributeError]; so
    does [set_next_components_q] on a registered component with a [next].
    Before its loop, [flow_pipeline] computes the seed flow and the initial
    head loss of the chain, and what they raise is what it raises: the
    [AttributeError] of its [except] clause on a chain without a [Pipe] among
    its first two components, the exception of [pc.flow_pipe], the [KeyError]
    of an unregistered component, the exception of a head loss formula.  When
    both are computed, which takes a [Pipe] among the first two components and
    a chain of registered components, the loop is entered, since
    [abs(1.0) > 0.01], and the assignment [self.q = flow] of its first
    iteration raises the [AttributeError].  In no case, whatever the number
    of iterations allowed, does [flow_pipeline] return a flow rate. *)
Theorem q_has_no_setter (self : component) (target_headloss : Quantity)
    (s : store) (fuel : nat) :
  (forall c v, Component_set_q c v s = (Raise setter_error, s))
  /\ is_AttributeError setter_error = true
  /\ (forall n, next self = Some n -> registered s self ->
      set_next_components_q self s = (Raise setter_error, s))
  /\ qgtb (qabs (Qty 1.0 "")) (Qty 0.01 "") = true
  /\ flow_pipeline (S fuel) self target_headloss s =
       (let! _ := flow_seed self target_headloss in
        let! _ := headloss_pipeline self s in
        Raise setter_error, s)
  /\ (forall flow h,
        flow_seed self target_headloss = Ok flow ->
        headloss_pipeline self s = Ok h ->
        seeded self = true
        /\ Forall (registered s) (chain self)
        /\ flow_pipeline (S fuel) self target_headloss s =
             (Raise setter_error, s))
  /\ (seeded self = false ->
      flow_pipeline fuel self target_headloss s = (Raise seed_error, s)
      /\ is_AttributeError seed_error = true)
  /\ (forall flow,
        fst (flow_pipeline fuel self target_headloss s) <> Ok (Some flow)).
Proof.
  split; [done|]. split; [done|].
  split; [|split; [|split; [|split; [|split]]]].
  - intros n. apply set_next_components_q_raises.
  - apply loop_condition_initially.
  - apply flow_pipeline_outcome.
  - intros flow h Hflow Hh.
    split; [by apply (flow_seed_Ok_seeded self target_headloss flow)|].
    split; [by apply (headloss_pipeline_Ok_registered self s h)|].
    by apply (flow_pipeline_first_iteration fuel self target_headloss flow h).
  - intros Hs. split; [|done].
    by apply flow_pipeline_seed_fails, flow_seed_unseeded.
  - intros flow Hflow.
    destruct (flow_pipeline_never_returns fuel self target_headloss s)
      as [E|[e E]]; by rewrite E in Hflow.
Qed.

(** What the methods behind C7 compute on the attributes they are given. *)
Lemma Pipe_get_id_sdr41 (self : component) (size_ : Quantity) :
  Pipe_get_id self size_ "sdr41" =
    Ok (set_size self (ceil_nearest size_ AVAILABLE_SIZES),
        Some (qdiv (qmul (ceil_nearest size_ AVAILABLE_SIZES) (of_int 39))
                (of_int 41))).
Proof. by destruct self. Qed.

Lemma Pipe_get_size_sdr41 (self : component) (id_ : Quantity) :
  let nd :=
    ceil_nearest (qdiv (qmul id_ (of_int 41)) (of_int 39)) AVAILABLE_SIZES in
  Pipe_get_size self id_ "sdr41" =
    Ok (set_id (set_size self (ceil_nearest nd AVAILABLE_SIZES))
          (qdiv (qmul (ceil_nearest nd AVAILABLE_SIZES) (of_int 39))
             (of_int 41)),
        Some nd).
Proof. by destruct self. Qed.

(** C6, on the code.  The outlets of a [Tee] cannot be given: a constructor
    call that passes [left], or [left_type] and [right_type], raises the
    [TypeError] of the call of [Component.__init__] before the part of
    [Tee.__init__] that chooses [next] and before [Tee._rep_ok]; that error is
    not the [ValueError] of the stopper rule. *)
Theorem Tee_outlet_keywords_raise_TypeError (self_id : N) (s : store)
    (pipe_addr : N) :
  Tee_init self_id (mkKwargs None None {["left" := VObj pipe_addr]}) s =
    (Raise unexpected_keyword, s)
  /\ Tee_init self_id
       (mkKwargs None None
          {["left_type" := VStr "stopper"; "right_type" := VStr "stopper"]}) s =
     (Raise unexpected_keyword, s)
  /\ raises (ValueError "All tees must have one stopper.")
       (Raise unexpected_keyword : result component) = false.
Proof.
  split; [|split; [|done]].
  - change (Tee_init self_id) with (construct TTee self_id).
    rewrite construct_cases. by rewrite (kw_in_other "left").
  - change (Tee_init self_id) with (construct TTee self_id).
    rewrite construct_cases. by rewrite (kw_in_other "left_type").
Qed.

(** C7, on the code.  A [Pipe] cannot be given a size or an inner diameter: a
    constructor call that passes [size], or [id], with or without [spec],
    raises the [TypeError] of the call of [Component.__init__], before the
    statements of [Pipe.__init__] that derive one from the other. *)
Theorem Pipe_size_keyword_raises_TypeError (self_id : N) (s : store)
    (v : Quantity) :
  Pipe_init self_id (mkKwargs None None {["size" := VQty v]}) s =
    (Raise unexpected_keyword, s)
  /\ Pipe_init self_id (mkKwargs None None {["id" := VQty v]}) s =
     (Raise unexpected_keyword, s)
  /\ Pipe_init self_id
       (mkKwargs None None {["size" := VQty v; "spec" := VStr "sdr26"]}) s =
     (Raise unexpected_keyword, s).
Proof.
  split; [|split];
    change (Pipe_init self_id) with (construct TPipe self_id);
    rewrite construct_cases.
  - by rewrite (kw_in_other "size").
  - by rewrite (kw_in_other "id").
  - by rewrite (kw_in_other "size").
Qed.

End ClaimsOnSolver.

(** * Evaluation on concrete inputs *)

Section Evaluation.
#[local] Existing Instance sample_env.

Example three_components_built :
  fst (Pipe_init 1 no_kwargs empty_store) = Ok (sample_pipe 1)
  /\ fst (Elbow_init 2 no_kwargs (snd (Pipe_init 1 no_kwargs empty_store))) =
       Ok sample_elbow
  /\ Forall (registered three_components) (chain pipe_elbow_pipe).
Proof.
  split; [by vm_compute|]. split; [by vm_compute|].
  apply (bool_decide_unpack _). by vm_compute.
Qed.

Example headloss_pipeline_pipe_elbow_pipe :
  headloss_pipeline pipe_elbow_pipe three_components
  = Ok (qadd (Qty (20 * 1) "m") (qadd (Qty (20 * 0.9) "m") (Qty (20 * 1) "m"))).
Proof. by vm_compute. Qed.

Example Pipe_with_size_and_id :
  fst (Pipe_init 1
         (mkKwargs None None
            {["size" := VQty (Qty 1 "inch"); "id" := VQty (Qty 1 "inch")]})
         empty_store) = Raise both_error.
Proof. by vm_compute. Qed.

Example flow_pipeline_pipe_elbow_pipe :
  fst (flow_pipeline 5 pipe_elbow_pipe (Qty 1 "m") three_components)
  = Raise setter_error.
Proof. by vm_compute. Qed.

(** The errors of the formulas come first: a target below zero is rejected
    when the flow is seeded, a flow rate of zero when the initial head loss
    is computed, both before the loop. *)
Example flow_pipeline_negative_target :
  flow_pipeline 5 (sample_pipe 1) (Qty (-1) "m") three_components =
    (Raise (ValueError "Headloss due to friction is out of bounds."),
     three_components).
Proof. by vm_compute. Qed.

Example flow_pipeline_still_water :
  fst (Pipe_init 1 (mkKwargs (Some (Qty 0 "L/s")) None ∅) empty_store) =
    Ok (sample_pipe 1)
  /\ headloss (sample_pipe 1) still_water =
       Raise (ValueError "Flow rate is out of bounds.")
  /\ flow_pipeline 5 (sample_pipe 1) (Qty 1 "m") still_water =
       (Raise (ValueError "Flow rate is out of bounds."), still_water).
Proof. repeat split; by vm_compute. Qed.

Lemma propogate_config_shares_record_witness :
  configs registered_store !! mem_loc (mkComponent 1) = Some 0%N
  /\ exists s',
       propogate_config (mkComponent 1) [mkComponent 2; mkComponent 3]
         registered_store = (Ok tt, s')
       /\ configs s' !! mem_loc (mkComponent 1) = Some 0%N
       /\ forall child, child ∈ [mkComponent 2; mkComponent 3] ->
            configs s' !! mem_loc child = configs s' !! mem_loc (mkComponent 1)
            /\ Component_q child s' = Component_q (mkComponent 1) s'
            /\ Component_temp child s' = Component_temp (mkComponent 1) s'
            /\ forall v,
                 let s'' := snd (configs_set_q (mem_loc (mkComponent 1)) v s') in
                 Component_q (mkComponent 1) s'' = Ok v
                 /\ Component_q child s'' = Ok v.
Proof.
  split; [reflexivity|].
  apply (propogate_config_shares_record (mkComponent 1)
           [mkComponent 2; mkComponent 3] registered_store 0%N).
  reflexivity.
Defined.

Lemma other_keywords_raise_TypeError_witness :
  let kw := mkKwargs None None {["size" := VQty (Qty 1 "inch")]} in
  kw_in "size" kw = true
  /\ kw_in "size" kw && kw_in "id" kw = false
  /\ construct TPipe 1 kw empty_store = (Raise unexpected_keyword, empty_store).
Proof.
  split; [reflexivity|]. split; [reflexivity|].
  apply (other_keywords_raise_TypeError TPipe 1
           (mkKwargs None None {["size" := VQty (Qty 1 "inch")]})
           empty_store "size");
    [discriminate | discriminate | reflexivity | reflexivity].
Defined.

Lemma adjacency_validation_witness :
  next pipe_pipe = Some (sample_pipe 3)
  /\ rep_ok pipe_pipe = Raise (TypeError "Pipes must be connected with fittings.")
  /\ PipelineComponent_rep_ok pipe_elbow_pipe = Ok tt
  /\ rep_ok pipe_elbow_pipe = Ok tt
  /\ exists msg, rep_ok tee_elbow = Raise (ValueError msg).
Proof.
  split; [reflexivity|]. split; [|split; [|split]].
  - destruct (adjacency_validation pipe_pipe (sample_pipe 3) eq_refl)
      as (_ & Hpipe & _).
    apply Hpipe; reflexivity.
  - destruct (adjacency_validation pipe_elbow_pipe
                (set_next sample_elbow (Some (sample_pipe 3))) eq_refl)
      as (_ & _ & _ & Hpass & _).
    apply Hpass; [intros _; apply (bool_decide_unpack _); by vm_compute
                 | discriminate].
  - destruct (adjacency_validation pipe_elbow_pipe
                (set_next sample_elbow (Some (sample_pipe 3))) eq_refl)
      as (_ & _ & _ & _ & _ & Hpass & _).
    apply Hpass; [discriminate
                 | intros _; apply (bool_decide_unpack _); by vm_compute
                 | discriminate].
  - destruct (adjacency_validation tee_elbow sample_elbow eq_refl)
      as (_ & _ & _ & _ & _ & _ & Htee).
    apply Htee; [reflexivity | apply (bool_decide_unpack _); by vm_compute].
Defined.

(** C5 as it is worded fails on a tee: [Tee()] followed by [Elbow()] meets
    the two adjacency rules, which constrain what follows a [Pipe] and what
    follows an [Elbow], and the method of the base class passes; the
    validation of the tee, [Tee._rep_ok], raises. *)
Lemma Tee_followed_by_Elbow_fails_validation :
  fst (Tee_init 4 no_kwargs empty_store) = Ok (default_object TTee 4)
  /\ fst (Elbow_init 2 no_kwargs empty_store) = Ok sample_elbow
  /\ next tee_elbow = Some sample_elbow
  /\ type_of tee_elbow = TTee
  /\ PipelineComponent_rep_ok tee_elbow = Ok tt
  /\ rep_ok tee_elbow =
       Raise (ValueError "Tees cannot be followed by other fittings.").
Proof. repeat split; by vm_compute. Qed.

Lemma q_has_no_setter_witness :
  seeded pipe_elbow_pipe = true
  /\ set_next_components_q pipe_elbow_pipe three_components =
       (Raise setter_error, three_components)
  /\ flow_seed pipe_elbow_pipe (Qty 1 "m") = Ok (Qty (1 * 0.476) "m**3/s")
  /\ is_Ok (headloss_pipeline pipe_elbow_pipe three_components) = true
  /\ flow_pipeline 1 pipe_elbow_pipe (Qty 1 "m") three_components =
       (Raise setter_error, three_components)
  /\ flow_pipeline 1 pipe_elbow_pipe (Qty (-1) "m") three_components =
       (Raise (ValueError "Headloss due to friction is out of bounds."),
        three_components)
  /\ seeded sample_elbow = false
  /\ flow_pipeline 1 sample_elbow (Qty 1 "m") three_components =
       (Raise seed_error, three_components).
Proof.
  destruct (q_has_no_setter pipe_elbow_pipe (Qty 1 "m") three_components 0)
    as (_ & _ & Hnext & _ & _ & Hflow & _).
  destruct (q_has_no_setter pipe_elbow_pipe (Qty (-1) "m") three_components 0)
    as (_ & _ & _ & _ & Hout & _).
  destruct (q_has_no_setter sample_elbow (Qty 1 "m") three_components 1)
    as (_ & _ & _ & _ & _ & _ & Hseed & _).
  split; [reflexivity|].
  split; [|split; [reflexivity|split; [reflexivity|split; [|split; [|split]]]]].
  - apply (Hnext (set_next sample_elbow (Some (sample_pipe 3))));
      [reflexivity | apply (bool_decide_unpack _); by vm_compute].
  - apply (Hflow (Qty (1 * 0.476) "m**3/s")
             (qadd (Qty (20 * 1) "m")
                (qadd (Qty (20 * 0.9) "m") (Qty (20 * 1) "m"))));
      reflexivity.
  - rewrite Hout. reflexivity.
  - reflexivity.
  - apply Hseed. reflexivity.
Defined.

(** C10 as it is worded fails on a chain without a pipe among its first two
    components: on [Elbow()] alone, [flow_pipeline] raises the error of its
    [except] clause, and the loop, with its assignment to [q], is never
    entered. *)
Lemma flow_pipeline_single_elbow_skips_the_loop :
  fst (Elbow_init 2 no_kwargs empty_store) = Ok sample_elbow
  /\ next sample_elbow = None
  /\ fst (flow_pipeline 1 sample_elbow (Qty 1 "m")
            (snd (Elbow_init 2 no_kwargs empty_store))) = Raise seed_error
  /\ raises setter_error
       (fst (flow_pipeline 1 sample_elbow (Qty 1 "m")
               (snd (Elbow_init 2 no_kwargs empty_store)))) = false.
Proof. repeat split; by vm_compute. Qed.

End Evaluation.

(** * Further properties *)

(** ** The registry *)

Lemma store_eq (s1 s2 : store) :
  configs s1 = configs s2 -> heap s1 = heap s2 -> s1 = s2.
Proof. destruct s1, s2. cbn. by intros -> ->. Qed.

(** What [q] and [temp] read depends on the entry and on the records only. *)
Lemma accessors_same_entry (c : Component) (s1 s2 : store) :
  configs s1 !! mem_loc c = configs s2 !! mem_loc c ->
  heap s1 = heap s2 ->
  Component_q c s1 = Component_q c s2
  /\ Component_temp c s1 = Component_temp c s2.
Proof.
  intros Hc Hh. unfold Component_q, Component_temp, configs_getitem.
  by rewrite Hc, Hh.
Qed.

Lemma propogate_config_unregistered (self : Component)
    (subcomponents : list Component) (s : store) :
  configs s !! mem_loc self = None ->
  propogate_config self subcomponents s =
    match subcomponents with
    | [] => (Ok tt, s)
    | _ :: _ => (Raise (KeyError (mem_loc self)), s)
    end.
Proof. intros E. destruct subcomponents; cbn; [done|]. by rewrite E. Qed.

(** X1. [propogate_config] is all or nothing: it raises [KeyError], with the
    store untouched, exactly when the parent has no entry and the list is not
    empty; with an empty list it returns without looking the parent up; and
    with a registered parent it returns with the parent's record under every
    child of the list. *)
Theorem propogate_config_all_or_nothing (self : Component)
    (subcomponents : list Component) (s : store) :
  match configs s !! mem_loc self, subcomponents with
  | None, [] => propogate_config self subcomponents s = (Ok tt, s)
  | None, _ :: _ =>
      propogate_config self subcomponents s =
        (Raise (KeyError (mem_loc self)), s)
  | Some r, _ =>
      exists s',
        propogate_config self subcomponents s = (Ok tt, s')
        /\ Forall (fun c => configs s' !! mem_loc c = Some r) subcomponents
  end.
Proof.
  destruct (configs s !! mem_loc self) as [r|] eqn:E.
  - destruct (propogate_config_registered self subcomponents s r E)
      as (s' & Hrun & _ & Hcfg).
    exists s'. split; [done|]. apply Forall_forall. intros c Hc.
    rewrite Hcfg, bool_decide_eq_true_2; [done|].
    by apply list_elem_of_fmap_2.
  - rewrite (propogate_config_unregistered _ _ _ E).
    by destruct subcomponents.
Qed.

(** X2. [propogate_config] creates and changes no record, and leaves the
    entry of the parent and of every component outside the list as it was:
    what these components read as [q] and [temp] is unchanged. *)
Theorem propogate_config_frame (self : Component)
    (subcomponents : list Component) (s : store) :
  let s' := snd (propogate_config self subcomponents s) in
  heap s' = heap s
  /\ configs s' !! mem_loc self = configs s !! mem_loc self
  /\ Component_q self s' = Component_q self s
  /\ forall c, mem_loc c ∉ mem_loc <$> subcomponents ->
       configs s' !! mem_loc c = configs s !! mem_loc c
       /\ Component_q c s' = Component_q c s
       /\ Component_temp c s' = Component_temp c s.
Proof.
  intros s'. subst s'.
  destruct (configs s !! mem_loc self) as [r|] eqn:E.
  - destruct (propogate_config_registered self subcomponents s r E)
      as (s' & -> & Hheap & Hcfg). cbn [snd].
    assert (Hself : configs s' !! mem_loc self = Some r)
      by (rewrite Hcfg; by case_bool_decide).
    split; [done|]. split; [by rewrite Hself|].
    split.
    { apply accessors_same_entry; [by rewrite Hself, E|done]. }
    intros c Hc.
    assert (Hsame : configs s' !! mem_loc c = configs s !! mem_loc c)
      by (by rewrite Hcfg, bool_decide_eq_false_2).
    split; [done|]. by apply accessors_same_entry.
  - rewrite (propogate_config_unregistered _ _ _ E).
    by destruct subcomponents.
Qed.

Lemma propogate_config_app (self : Component) (l1 l2 : list Component)
    (s : store) :
  propogate_config self (l1 ++ l2) s =
    (propogate_config self l1 ;;; propogate_config self l2) s.
Proof.
  revert s. induction l1 as [|c l1 IH]; intros s; [done|].
  cbn [app propogate_config]. unfold bind at 1. cbn [propogate_config].
  destruct (configs s !! mem_loc self); [|done].
  rewrite IH. done.
Qed.

Lemma propogate_config_twice (self : Component) (l : list Component)
    (s : store) :
  propogate_config self l (snd (propogate_config self l s)) =
    propogate_config self l s.
Proof.
  destruct (configs s !! mem_loc self) as [r|] eqn:E.
  - destruct (propogate_config_registered self l s r E)
      as (s' & Hrun & Hheap & Hcfg). rewrite Hrun. cbn [snd].
    assert (Hself : configs s' !! mem_loc self = Some r)
      by (rewrite Hcfg; by case_bool_decide).
    destruct (propogate_config_registered self l s' r Hself)
      as (s'' & -> & Hheap' & Hcfg'). f_equal.
    apply store_eq; [|congruence].
    apply map_eq. intros loc. rewrite Hcfg', Hcfg. by case_bool_decide.
  - rewrite (propogate_config_unregistered _ _ _ E).
    destruct l; cbn [snd]; by rewrite (propogate_config_unregistered _ _ _ E).
Qed.

(** X3. Propagating to [l1 ++ l2] is propagating to [l1] and then to [l2]
    (an exception of the first call ends the sequence), and propagating a
    second time to the same list changes nothing. *)
Theorem propogate_config_composes (self : Component) (l1 l2 : list Component)
    (s : store) :
  propogate_config self (l1 ++ l2) s =
    (propogate_config self l1 ;;; propogate_config self l2) s
  /\ propogate_config self l1 (snd (propogate_config self l1 s)) =
       propogate_config self l1 s.
Proof.
  split; [apply propogate_config_app | apply propogate_config_twice].
Qed.

(** X4. The last propagation wins: a child propagated from a first parent and
    then from a second one, whose record is another one, has the record
    of the second; it reads the [q] of the second parent, and an assignment
    to the [q] of the first parent's record is no longer read through it. *)
Theorem propogate_config_last_parent_wins (p1 p2 child : Component)
    (s : store) (r1 r2 : N) (v : Quantity) :
  configs s !! mem_loc p1 = Some r1 ->
  configs s !! mem_loc p2 = Some r2 ->
  r1 <> r2 ->
  mem_loc child <> mem_loc p1 ->
  mem_loc child <> mem_loc p2 ->
  let s1 := snd (propogate_config p1 [child] s) in
  let s2 := snd (propogate_config p2 [child] s1) in
  let s3 := snd (configs_set_q (mem_loc p1) v s2) in
  configs s1 !! mem_loc child = Some r1
  /\ configs s2 !! mem_loc child = Some r2
  /\ Component_q child s2 = Component_q p2 s
  /\ Component_q p1 s3 = Ok v
  /\ Component_q child s3 = Component_q p2 s.
Proof.
  intros E1 E2 Hr Hc1 Hc2 s1 s2 s3.
  assert (H1 : s1 = mkStore (<[mem_loc child := r1]> (configs s)) (heap s)).
  { subst s1. cbn. by rewrite E1. }
  assert (H2 : s2 = mkStore (<[mem_loc child := r2]> (configs s1)) (heap s)).
  { subst s2. cbn. rewrite H1. cbn. rewrite lookup_insert_ne by done.
    by rewrite E2. }
  assert (H3 : s3 =
            mkStore (configs s2)
              (<[r1 := PlantInput.mk v (PlantInput.temp (record_of s r1))]>
                 (heap s))).
  { subst s3. unfold configs_set_q. rewrite H2, H1. cbn.
    rewrite !lookup_insert_ne by done. by rewrite E1. }
  rewrite H3, H2, H1. unfold Component_q, configs_getitem. cbn.
  rewrite !lookup_insert_eq. rewrite !lookup_insert_ne by done.
  rewrite E1, E2. cbn. rewrite lookup_insert_eq.
  by repeat split.
Qed.

Lemma store_wf_Component_init (self_id : N) (q temp : Quantity) (s : store) :
  store_wf s -> store_wf (snd (Component_init self_id q temp s)).
Proof.
  intros Hwf.
  destruct (Component_init_registers self_id q temp s) as (s' & -> & Hs').
  cbn [snd]. destruct (configs s !! self_id) as [r0|] eqn:E; [by subst s'|].
  destruct Hs' as (r & Hr & Hc & Hh). intros loc r'. rewrite Hc, Hh.
  destruct (decide (loc = self_id)) as [->|Hne].
  - rewrite lookup_insert_eq. intros [= <-]. by rewrite lookup_insert_eq.
  - rewrite lookup_insert_ne by done. intros Hl.
    destruct (Hwf loc r' Hl) as [p Hp].
    destruct (decide (r = r')) as [->|Hr']; [congruence|].
    rewrite lookup_insert_ne by done. by eexists.
Qed.

(** A new record is not the record of any entry there was. *)
Lemma Component_init_others (self_id : N) (q temp : Quantity) (s : store)
    (c : Component) :
  store_wf s ->
  configs s !! self_id = None ->
  mem_loc c <> self_id ->
  let s' := snd (Component_init self_id q temp s) in
  Component_q c s' = Component_q c s
  /\ Component_temp c s' = Component_temp c s
  /\ forall v,
       Component_q c (snd (configs_set_q self_id v s')) = Component_q c s.
Proof.
  intros Hwf E Hne s'. subst s'.
  destruct (Component_init_registers self_id q temp s) as (s' & -> & Hs').
  cbn [snd]. rewrite E in Hs'. destruct Hs' as (r & Hr & Hc & Hh).
  assert (Hself : configs s' !! self_id = Some r)
    by (rewrite Hc; apply lookup_insert_eq).
  unfold Component_q, Component_temp, configs_getitem, configs_set_q.
  rewrite Hself. cbn [snd configs heap]. rewrite Hc, Hh.
  rewrite !lookup_insert_ne by done.
  destruct (configs s !! mem_loc c) as [r'|] eqn:Ec; [|done].
  destruct (Hwf _ _ Ec) as [p Hp].
  assert (r <> r') by congruence.
  rewrite !lookup_insert_ne by done. split; [done|]. split; [done|].
  intros v. by rewrite !lookup_insert_ne by done.
Qed.

Lemma Component_init_reads (self_id : N) (q temp : Quantity) (s : store) :
  configs s !! self_id = None ->
  let s' := snd (Component_init self_id q temp s) in
  Component_q (mkComponent self_id) s' = Ok q
  /\ Component_temp (mkComponent self_id) s' = Ok temp.
Proof.
  intros E s'. subst s'. unfold Component_init. cbn [mem_loc]. rewrite E.
  unfold Component_q, Component_temp, configs_getitem. cbn.
  by rewrite !lookup_insert_eq.
Qed.

(** X6. A component built at an address without an entry gets a record of its
    own: it reads the [q] and [temp] it was given, what every other component
    reads is unchanged, and an assignment to the [q] of the new record is
    not read through any other component. *)
Theorem Component_init_record_is_private (self_id : N) (q temp : Quantity)
    (s : store) :
  store_wf s ->
  configs s !! self_id = None ->
  let s' := snd (Component_init self_id q temp s) in
  Component_q (mkComponent self_id) s' = Ok q
  /\ Component_temp (mkComponent self_id) s' = Ok temp
  /\ forall c, mem_loc c <> self_id ->
       Component_q c s' = Component_q c s
       /\ Component_temp c s' = Component_temp c s
       /\ forall v,
            Component_q c (snd (configs_set_q self_id v s')) = Component_q c s.
Proof.
  intros Hwf E s'. subst s'.
  destruct (Component_init_reads self_id q temp s E) as [Hq Ht].
  split; [done|]. split; [done|].
  intros c Hne. by apply Component_init_others.
Qed.

(** ** Head loss and flow along a chain *)

Section ChainProperties.
Context `{Env}.

Lemma headloss_unregistered (c : component) (s : store) :
  ~ registered s c ->
  headloss c s = Raise (KeyError (mem_loc (as_Component (base_of c)))).
Proof.
  intros Hn.
  assert (E : configs s !! mem_loc (as_Component (base_of c)) = None).
  { unfold registered in Hn. by apply eq_None_not_Some. }
  destruct c as [b n i p|b n i a|b n i t l r]; cbn in *;
    rewrite (Component_q_unregistered _ _ E); try done.
  by destruct (String.eqb _ _).
Qed.

Lemma first_unregistered_unfold (s : store) (self : component) :
  first_unregistered s self =
    if bool_decide (registered s self) then
      match next self with
      | Some n => first_unregistered s n
      | None => None
      end
    else Some self.
Proof.
  unfold first_unregistered. rewrite (chain_unfold self). cbn [List.find].
  case_bool_decide; cbn [negb]; [|done]. by destruct (next self).
Qed.

Lemma headloss_registered (c : component) (s : store) :
  registered s c ->
  exists q,
    Component_q (as_Component (base_of c)) s = Ok q
    /\ headloss c s = headloss_at c q.
Proof.
  intros [r Hr]. eexists. split; [by apply (Component_q_registered _ _ r)|].
  by rewrite headloss_formula, (Component_q_registered _ _ r Hr).
Qed.

Lemma first_failing_unfold (s : store) (self : component) :
  first_failing s self =
    if is_Ok (headloss self s) then
      match next self with
      | Some n => first_failing s n
      | None => None
      end
    else Some self.
Proof.
  unfold first_failing. rewrite (chain_unfold self). cbn [List.find].
  destruct (is_Ok (headloss self s)); cbn [negb]; [|done].
  by destruct (next self).
Qed.

(** The exception of [headloss_pipeline] is that of the first component, in
    chain order, whose [headloss] raises. *)
Lemma headloss_pipeline_first_failing (self : component) (s : store) :
  match first_failing s self with
  | None => exists h, headloss_pipeline self s = Ok h
  | Some c =>
      c ∈ chain self
      /\ exists e, headloss c s = Raise e /\ headloss_pipeline self s = Raise e
  end.
Proof.
  induction self as [c E|c n E IH] using component_next_ind;
    rewrite first_failing_unfold, headloss_pipeline_unfold, (chain_unfold c), E;
    destruct (headloss c s) as [h|e] eqn:Eh; cbn [is_Ok rbind].
  - by eexists.
  - split; [apply elem_of_cons; by left|]. by eexists.
  - destruct (first_failing s n) as [u|].
    + destruct IH as (Hin & e & He & ->). split; [|by eexists].
      apply elem_of_cons. by right.
    + destruct IH as (h' & ->). by eexists.
  - split; [apply elem_of_cons; by left|]. by eexists.
Qed.

Lemma headloss_pipeline_first_unregistered (self : component) (s : store) :
  formulas_return s self ->
  match first_unregistered s self with
  | None =>
      Forall (registered s) (chain self)
      /\ exists h, headloss_pipeline self s = Ok h
  | Some c =>
      c ∈ chain self
      /\ ~ registered s c
      /\ headloss_pipeline self s =
           Raise (KeyError (mem_loc (as_Component (base_of c))))
  end.
Proof.
  unfold formulas_return.
  induction self as [c E|c n E IH] using component_next_ind;
    rewrite first_unregistered_unfold, headloss_pipeline_unfold,
      (chain_unfold c), E;
    intros [Hret Hrest]%Forall_cons;
    case_bool_decide as Hc.
  - split; [by apply Forall_cons|].
    destruct (headloss c s) as [h|e]; [by eexists|]. by specialize (Hret Hc).
  - split; [apply elem_of_cons; by left|]. split; [done|].
    by apply headloss_unregistered.
  - destruct (headloss c s) as [h|e]; [|by specialize (Hret Hc)].
    cbn [rbind]. specialize (IH Hrest).
    destruct (first_unregistered s n) as [u|].
    + destruct IH as (Hin & Hu & ->). split; [|done].
      apply elem_of_cons. by right.
    + destruct IH as (Hall & h' & ->). split; [by apply Forall_cons|].
      by eexists.
  - split; [apply elem_of_cons; by left|]. split; [done|].
    by rewrite (headloss_unregistered c s Hc).
Qed.

(** X7. [headloss_pipeline] returns a value exactly when the [headloss] of
    every component of the chain returns, which takes an entry in
    [PlantInput.configs] for each of them; otherwise it raises what the first
    component, in chain order, whose [headloss] raises does raise: the
    [KeyError] of its address when it has no entry, and else the exception of
    its formula.  When the formulas return, [headloss_pipeline] returns
    exactly when every component has an entry, and otherwise raises the
    [KeyError] of the first component that has none. *)
Theorem headloss_pipeline_outcome (self : component) (s : store) :
  match first_failing s self with
  | None =>
      Forall (registered s) (chain self)
      /\ exists h, headloss_pipeline self s = Ok h
  | Some c =>
      c ∈ chain self
      /\ (exists e, headloss c s = Raise e /\ headloss_pipeline self s = Raise e)
      /\ (~ registered s c ->
          headloss_pipeline self s =
            Raise (KeyError (mem_loc (as_Component (base_of c)))))
      /\ (registered s c ->
          exists q,
            Component_q (as_Component (base_of c)) s = Ok q
            /\ headloss_pipeline self s = headloss_at c q)
  end
  /\ (formulas_return s self ->
      match first_unregistered s self with
      | None =>
          Forall (registered s) (chain self)
          /\ exists h, headloss_pipeline self s = Ok h
      | Some c =>
          c ∈ chain self
          /\ ~ registered s c
          /\ headloss_pipeline self s =
               Raise (KeyError (mem_loc (as_Component (base_of c))))
      end).
Proof.
  split; [|apply headloss_pipeline_first_unregistered].
  pose proof (headloss_pipeline_first_failing self s) as Hout.
  destruct (first_failing s self) as [c|].
  - destruct Hout as (Hin & e & He & Hp). split; [done|].
    split; [by exists e|]. split.
    + intros Hc. by rewrite Hp, <- He, (headloss_unregistered c s Hc).
    + intros Hc. destruct (headloss_registered c s Hc) as (q & Hq & Hf).
      exists q. split; [done|]. by rewrite Hp, <- He, Hf.
  - destruct Hout as [h Hh]. split; [|by exists h].
    by apply (headloss_pipeline_Ok_registered self s h).
Qed.

Lemma elem_of_components_of (self c : component) :
  c ∈ chain self -> as_Component (base_of c) ∈ components_of self.
Proof.
  intros Hc. unfold components_of.
  by apply (list_elem_of_fmap_2 (fun c => as_Component (base_of c))).
Qed.

Lemma traverse_ext {A B} (f g : A -> result B) (l : list A) :
  (forall a, a ∈ l -> f a = g a) -> traverse f l = traverse g l.
Proof.
  induction l as [|a l IH]; intros Hfg; [done|]. cbn [traverse].
  rewrite (Hfg a) by (apply elem_of_cons; by left).
  rewrite IH; [done|]. intros b Hb. apply Hfg, elem_of_cons. by right.
Qed.

(** X8. Propagating from a registered component to the components of a chain
    puts the whole chain on the record of that component: afterwards every
    component of the chain is registered and reads the [q] of the parent, so
    that [headloss_pipeline] raises no [KeyError] and is the sum of the
    formulas of the chain at that one flow rate (it raises only what a formula
    raises), and an assignment to the [q] of the parent's record is read by
    every component of the chain. *)
Theorem propogate_config_sets_chain_flow (parent : Component)
    (self : component) (s : store) (r : N) :
  configs s !! mem_loc parent = Some r ->
  let s' := snd (propogate_config parent (components_of self) s) in
  let q := PlantInput.q (record_of s r) in
  Component_q parent s = Ok q
  /\ Forall (registered s') (chain self)
  /\ Forall (fun c => Component_q (as_Component (base_of c)) s' =
                      Component_q parent s) (chain self)
  /\ headloss_pipeline self s' =
       (let! h := headloss_at self q in
        let! hs := traverse (fun c => headloss_at c q) (tail (chain self)) in
        Ok (sum_right h hs))
  /\ forall v,
       Forall (fun c =>
                 Component_q (as_Component (base_of c))
                   (snd (configs_set_q (mem_loc parent) v s')) = Ok v)
         (chain self).
Proof.
  intros E s' q. subst s' q.
  destruct (propogate_config_registered parent (components_of self) s r E)
    as (s' & -> & Hheap & Hcfg). cbn [snd].
  assert (Hp : configs s' !! mem_loc parent = Some r)
    by (rewrite Hcfg; by case_bool_decide).
  assert (Hin : forall c, c ∈ chain self ->
            configs s' !! mem_loc (as_Component (base_of c)) = Some r).
  { intros c Hc. rewrite Hcfg, bool_decide_eq_true_2; [done|].
    apply list_elem_of_fmap_2. by apply elem_of_components_of. }
  assert (Hq : forall c, c ∈ chain self ->
            Component_q (as_Component (base_of c)) s' =
              Ok (PlantInput.q (record_of s r))).
  { intros c Hc. rewrite (Component_q_registered _ s' r (Hin c Hc)).
    unfold record_of. by rewrite Hheap. }
  assert (Hh : forall c, c ∈ chain self ->
            headloss c s' = headloss_at c (PlantInput.q (record_of s r))).
  { intros c Hc. by rewrite headloss_formula, (Hq c Hc). }
  split; [by apply Component_q_registered|].
  split; [|split; [|split]].
  - apply Forall_forall. intros c Hc. unfold registered.
    rewrite (Hin c Hc). by eexists.
  - apply Forall_forall. intros c Hc.
    by rewrite (Hq c Hc), (Component_q_registered _ s r E).
  - rewrite headloss_pipeline_traverse.
    rewrite Hh by (rewrite (chain_unfold self); apply elem_of_cons; by left).
    rewrite (traverse_ext (fun c => headloss c s')
               (fun c => headloss_at c (PlantInput.q (record_of s r)))).
    + by rewrite (chain_unfold self).
    + intros c Hc. apply Hh. rewrite (chain_unfold self).
      apply elem_of_cons. by right.
  - intros v. apply Forall_forall. intros c Hc.
    by apply (configs_set_q_seen (mem_loc parent) v s' r
                (as_Component (base_of c)) Hp (Hin c Hc)).
Qed.

(** X9. Neither [set_next_components_q] nor [flow_pipeline] changes the
    store, whatever they return or raise.  [set_next_components_q] returns
    when there is no [next]; with a [next] and an unregistered [self] it
    raises the [KeyError] of reading [self.q].  [flow_pipeline] raises before
    its loop what the seed flow raises, and else what the initial
    [headloss_pipeline] raises: once the flow is seeded, on an unregistered
    [self], the [KeyError] of reading [self.q]. *)
Theorem solver_leaves_store (fuel : nat) (self : component)
    (target_headloss : Quantity) (s : store) :
  snd (set_next_components_q self s) = s
  /\ snd (flow_pipeline fuel self target_headloss s) = s
  /\ match next self with
     | None => fst (set_next_components_q self s) = Ok tt
     | Some _ =>
         ~ registered s self ->
         fst (set_next_components_q self s) =
           Raise (KeyError (mem_loc (as_Component (base_of self))))
     end
  /\ (forall e,
        flow_seed self target_headloss = Raise e ->
        fst (flow_pipeline fuel self target_headloss s) = Raise e)
  /\ (forall flow e,
        flow_seed self target_headloss = Ok flow ->
        headloss_pipeline self s = Raise e ->
        fst (flow_pipeline fuel self target_headloss s) = Raise e)
  /\ (forall flow,
        flow_seed self target_headloss = Ok flow ->
        ~ registered s self ->
        fst (flow_pipeline fuel self target_headloss s) =
          Raise (KeyError (mem_loc (as_Component (base_of self))))).
Proof.
  assert (Hhead : forall flow e,
            flow_seed self target_headloss = Ok flow ->
            headloss_pipeline self s = Raise e ->
            fst (flow_pipeline fuel self target_headloss s) = Raise e).
  { intros flow e Hflow Hh. unfold flow_pipeline, bind, reading.
    by rewrite Hflow, Hh. }
  split; [|split; [|split; [|split; [|split]]]].
  - rewrite set_next_components_q_unfold.
    destruct (next self) as [n|]; [|done]. unfold bind, reading.
    by destruct (Component_q _ s).
  - apply flow_pipeline_store.
  - rewrite set_next_components_q_unfold.
    destruct (next self) as [n|]; [|done]. intros Hn.
    unfold bind, reading. rewrite Component_q_unregistered; [done|].
    unfold registered in Hn. by apply eq_None_not_Some.
  - intros e He. by rewrite (flow_pipeline_seed_fails fuel self _ s e He).
  - exact Hhead.
  - intros flow Hflow Hn. apply (Hhead flow); [done|].
    rewrite headloss_pipeline_unfold, (headloss_unregistered self s Hn).
    by destruct (next self).
Qed.

End ChainProperties.

(** ** Validation *)

Lemma chain_lookup_S (self : component) (i : nat) :
  chain self !! S i =
    match next self with
    | Some n => chain n !! i
    | None => None
    end.
Proof. rewrite (chain_unfold self). by destruct (next self). Qed.

Lemma chain_lookup_0 (self : component) : chain self !! 0%nat = Some self.
Proof. by rewrite (chain_unfold self). Qed.

(** Consecutive components of a chain are linked by [next]. *)
Lemma chain_lookup_next (self c n : component) (i : nat) :
  chain self !! i = Some c -> chain self !! S i = Some n -> next c = Some n.
Proof.
  revert self. induction i as [|i IH]; intros self.
  - rewrite chain_lookup_0, chain_lookup_S. intros [= <-].
    destruct (next self) as [m|]; [|done].
    rewrite chain_lookup_0. by intros [= <-].
  - rewrite (chain_lookup_S self i), (chain_lookup_S self (S i)).
    destruct (next self) as [m|]; [|done]. apply IH.
Qed.

Lemma in_AVAILABLE_PATHS (x : string) :
  x ∈ AVAILABLE_PATHS <-> x = "branch" \/ x = "run" \/ x = "stopper".
Proof.
  unfold AVAILABLE_PATHS. rewrite !elem_of_cons, elem_of_nil. tauto.
Qed.

Section ValidationProperties.
Context `{Env}.

Lemma count_stopper_one (l r : string) :
  count [l; r] "stopper" = 1%nat <->
  (l = "stopper" /\ r <> "stopper") \/ (l <> "stopper" /\ r = "stopper").
Proof.
  cbn [count].
  destruct (String.eqb_spec l "stopper"), (String.eqb_spec r "stopper");
    cbn; split; intros Hc; try discriminate Hc; try tauto.
Qed.

Lemma branch_or_run (x : string) :
  x ∈ ["branch"; "run"] <-> x ∈ AVAILABLE_PATHS /\ x <> "stopper".
Proof.
  rewrite in_AVAILABLE_PATHS, !elem_of_cons, elem_of_nil.
  split.
  - intros [->|[->|[]]]; split; auto; discriminate.
  - intros [[?|[?|?]] Hne]; auto; done.
Qed.

Lemma not_a_fitting (ty : pytype) : ty ∉ [TElbow; TTee] <-> ty = TPipe.
Proof.
  split.
  - intros Hn. destruct ty; [done| |];
      exfalso; apply Hn; rewrite !elem_of_cons; auto.
  - intros ->. rewrite !elem_of_cons, elem_of_nil.
    intros [Hc|[Hc|[]]]; discriminate Hc.
Qed.

(** X10. [Tee._rep_ok] accepts exactly the tees with one outlet of type
    [stopper] and the other of type [branch] or [run], whose [next], if there
    is one, has the size of the tee and is a [Pipe]; whatever it rejects, it
    rejects with a [ValueError]. *)
Theorem Tee_rep_ok_accepts (b : base) (n : option component) (t : tee_attrs) :
  (Tee_rep_ok b n t = Ok tt <->
   ((left_type t = "stopper" /\ right_type t ∈ ["branch"; "run"])
    \/ (right_type t = "stopper" /\ left_type t ∈ ["branch"; "run"]))
   /\ match n with
      | None => True
      | Some n' =>
          qneb (size b) (size (base_of n')) = false /\ type_of n' = TPipe
      end)
  /\ forall e, Tee_rep_ok b n t = Raise e -> exists msg, e = ValueError msg.
Proof.
  unfold Tee_rep_ok.
  destruct (Nat.eqb_spec (count [left_type t; right_type t] "stopper") 1)
    as [Hc|Hc]; cbn [negb].
  2:{ split; [|intros e He; injection He as <-; by eexists].
      split; [done|]. intros [Hone _]. exfalso. apply Hc.
      apply count_stopper_one. rewrite !branch_or_run in Hone.
      destruct Hone as [[Ha [_ Hb]]|[Ha [_ Hb]]]; auto. }
  apply count_stopper_one in Hc.
  case_bool_decide as Hl; cbn [negb].
  2:{ split; [|intros e He; injection He as <-; by eexists].
      split; [done|]. intros [Hone _]. exfalso. apply Hl.
      rewrite !branch_or_run in Hone.
      destruct Hone as [[Ha _]|[_ [Ha _]]]; [|done].
      rewrite Ha. apply in_AVAILABLE_PATHS. auto. }
  case_bool_decide as Hr; cbn [negb].
  2:{ split; [|intros e He; injection He as <-; by eexists].
      split; [done|]. intros [Hone _]. exfalso. apply Hr.
      rewrite !branch_or_run in Hone.
      destruct Hone as [[_ [Ha _]]|[Ha _]]; [done|].
      rewrite Ha. apply in_AVAILABLE_PATHS. auto. }
  assert (Hone :
    (left_type t = "stopper" /\ right_type t ∈ ["branch"; "run"])
    \/ (right_type t = "stopper" /\ left_type t ∈ ["branch"; "run"])).
  { rewrite !branch_or_run. destruct Hc as [[Ha Hb]|[Ha Hb]]; auto. }
  destruct n as [n'|]; [|by split].
  destruct (qneb (size b) (size (base_of n'))).
  { split; [|intros e He; injection He as <-; by eexists].
    split; [done|]. by intros [_ [Ha _]]. }
  case_bool_decide as Hty.
  - split; [|intros e He; injection He as <-; by eexists].
    split; [done|]. intros [_ [_ Hp]]. rewrite Hp in Hty.
    by apply not_a_fitting in Hty.
  - apply not_a_fitting in Hty. by split.
Qed.

Lemma Tee_rep_ok_next (b : base) (n : component) (t : tee_attrs) :
  Tee_rep_ok b (Some n) t = Ok tt ->
  qneb (size b) (size (base_of n)) = false /\ type_of n = TPipe.
Proof.
  unfold Tee_rep_ok.
  repeat (destruct (negb _); [done|]).
  destruct (qneb _ _); [done|].
  case_bool_decide as Hty; [done|]. intros _.
  split; [done|]. by apply not_a_fitting.
Qed.

(** X11. In a chain each of whose components passes its [_rep_ok], pipes and
    fittings alternate: of two consecutive components exactly one is a
    [Pipe], and a [Tee] is followed by a component of its own size. *)
Theorem valid_chain_alternates (self c n : component) (i : nat) :
  Forall (fun c => rep_ok c = Ok tt) (chain self) ->
  chain self !! i = Some c ->
  chain self !! S i = Some n ->
  next c = Some n
  /\ ((type_of c = TPipe /\ type_of n <> TPipe)
      \/ (type_of c <> TPipe /\ type_of n = TPipe))
  /\ (type_of c = TTee ->
      qneb (size (base_of c)) (size (base_of n)) = false).
Proof.
  intros Hall Hc Hn.
  pose proof (chain_lookup_next self c n i Hc Hn) as Hnext.
  split; [done|].
  assert (Hok : rep_ok c = Ok tt).
  { apply (proj1 (Forall_forall _ _) Hall), list_elem_of_lookup. by eexists. }
  destruct c as [b m j p|b m j a|b m j t l r]; cbn in Hnext; subst m.
  - unfold rep_ok, PipelineComponent_rep_ok in Hok. cbn in Hok.
    split; [|done]. left. split; [done|]. by destruct (type_of n).
  - unfold rep_ok, PipelineComponent_rep_ok in Hok. cbn in Hok.
    split; [|done]. right. split; [done|]. by destruct (type_of n).
  - cbn [rep_ok] in Hok.
    destruct (Tee_rep_ok_next b n t Hok) as [Hsize Hty].
    split; [|done]. by right.
Qed.

(** What a constructor call that returns has done. *)
Lemma construct_returns (ty : pytype) (self_id : N) (kw : kwargs)
    (s s' : store) (o : component) :
  construct ty self_id kw s = (Ok o, s') ->
  o = default_object ty self_id
  /\ s' = snd (Component_init self_id (default default_q (kw_q kw))
                 (default default_temp (kw_temp kw)) s).
Proof.
  rewrite construct_cases.
  destruct (kw_in "size" kw && kw_in "id" kw); [done|].
  destruct (only_q_temp kw); [|done].
  intros Heq. by injection Heq as <- <-.
Qed.

Lemma default_object_Component (ty : pytype) (self_id : N) :
  as_Component (base_of (default_object ty self_id)) = mkComponent self_id.
Proof. by destruct ty. Qed.

(** X12. Every component a constructor returns is registered under the
    address of the new object, is of the class that was called, has no
    [next] and passes its own [_rep_ok]; reading its [q] raises no
    [KeyError], and its [headloss] is the formula of its class at that flow
    rate (so it raises only if the formula does); built at an address without
    an entry, it reads the [q] and the [temp] of the call, 20 L/s and 20 degC
    when they were not given. *)
Theorem constructed_component (ty : pytype) (self_id : N) (kw : kwargs)
    (s s' : store) (o : component) :
  construct ty self_id kw s = (Ok o, s') ->
  registered s' o
  /\ as_Component (base_of o) = mkComponent self_id
  /\ type_of o = ty
  /\ next o = None
  /\ rep_ok o = Ok tt
  /\ (exists q,
        Component_q (as_Component (base_of o)) s' = Ok q
        /\ headloss o s' = headloss_at o q)
  /\ (configs s !! self_id = None ->
      Component_q (as_Component (base_of o)) s' =
        Ok (default (Qty 20 "L/s") (kw_q kw))
      /\ Component_temp (as_Component (base_of o)) s' =
           Ok (default (Qty 20 "degC") (kw_temp kw))).
Proof.
  intros Heq. destruct (construct_returns ty self_id kw s s' o Heq) as [-> ->].
  assert (Hreg : registered
            (snd (Component_init self_id (default default_q (kw_q kw))
                    (default default_temp (kw_temp kw)) s))
            (default_object ty self_id))
    by apply default_object_registered.
  split; [done|]. split; [by destruct ty|]. split; [by destruct ty|].
  split; [by destruct ty|]. split; [by destruct ty|].
  split; [by apply headloss_registered|].
  intros E. rewrite default_object_Component.
  by apply Component_init_reads.
Qed.

End ValidationProperties.

(** ** Catalogue look-ups *)

Lemma id_set_id (self : component) (v : Quantity) : id (set_id self v) = v.
Proof. by destruct self. Qed.

Lemma size_set_size (self : component) (v : Quantity) :
  size (base_of (set_size self v)) = v.
Proof. by destruct self. Qed.

Section CatalogueProperties.
Context `{Env}.

Lemma argmin_from_bound (l : list Quantity) (best_i i : nat)
    (best : Quantity) :
  (best_i < i)%nat -> (argmin_from best_i best i l < i + List.length l)%nat.
Proof.
  revert best_i best i. induction l as [|d l IH]; intros best_i best i Hb.
  - cbn. lia.
  - cbn [argmin_from List.length]. destruct (qltb d best).
    + specialize (IH i d (S i)). lia.
    + specialize (IH best_i best (S i)). lia.
Qed.

Lemma argmin_abs_diff_outcome (arr : list Quantity) (x : Quantity) :
  match arr with
  | [] =>
      argmin_abs_diff arr x =
        Raise (ValueError "attempt to get argmin of an empty sequence")
  | _ :: _ =>
      exists i, argmin_abs_diff arr x = Ok i /\ (i < List.length arr)%nat
  end.
Proof.
  destruct arr as [|a arr]; [done|]. unfold argmin_abs_diff. cbn [map].
  eexists. split; [done|].
  pose proof (argmin_from_bound (map (fun a => qabs (qsub a x)) arr) 0 1
                (qabs (qsub a x))) as Hb.
  rewrite length_map in Hb. cbn [List.length]. lia.
Qed.

(** The two statements of a look-up: the row nearest to [x] in [keys], read
    in [keys] and in [values]. *)
Lemma paired_lookup (keys values : list Quantity) (x : Quantity) :
  keys <> [] ->
  List.length values = List.length keys ->
  exists i k v,
    argmin_abs_diff keys x = Ok i
    /\ keys !! i = Some k /\ values !! i = Some v
    /\ getitem keys i = Ok k /\ getitem values i = Ok v.
Proof.
  intros Hne Hlen. pose proof (argmin_abs_diff_outcome keys x) as Ho.
  destruct keys as [|k0 keys]; [done|]. destruct Ho as (i & Hi & Hlt).
  destruct (lookup_lt_is_Some_2 (k0 :: keys) i Hlt) as [k Hk].
  destruct (lookup_lt_is_Some_2 values i) as [v Hv]; [by rewrite Hlen|].
  exists i, k, v. unfold getitem. by rewrite Hk, Hv.
Qed.

(** X13. [_get_size] and [_get_id] of [Elbow] and [Tee]: on an empty table
    they raise the [ValueError] of [argmin]; on tables that are not empty and
    have one row per size they always return, with a size and an inner
    diameter taken from one and the same row of the two tables, the one
    assigned to the object and the other returned. *)
Theorem fitting_lookups_return (self : component) (x : Quantity) :
  (AVAILABLE_FITTING_IDS = [] ->
   fitting_get_size self x =
     Raise (ValueError "attempt to get argmin of an empty sequence"))
  /\ (AVAILABLE_FITTING_SIZES = [] ->
      fitting_get_id self x =
        Raise (ValueError "attempt to get argmin of an empty sequence"))
  /\ (AVAILABLE_FITTING_IDS <> [] ->
      List.length AVAILABLE_FITTING_SIZES = List.length AVAILABLE_FITTING_IDS ->
      (exists i v sz,
         AVAILABLE_FITTING_IDS !! i = Some v
         /\ AVAILABLE_FITTING_SIZES !! i = Some sz
         /\ fitting_get_size self x = Ok (set_id self v, sz))
      /\ (exists i v sz,
            AVAILABLE_FITTING_IDS !! i = Some v
            /\ AVAILABLE_FITTING_SIZES !! i = Some sz
            /\ fitting_get_id self x = Ok (set_size self sz, v))).
Proof.
  split; [|split].
  - intros E. unfold fitting_get_size. by rewrite E.
  - intros E. unfold fitting_get_id. by rewrite E.
  - intros Hne Hlen. split.
    + destruct (paired_lookup AVAILABLE_FITTING_IDS AVAILABLE_FITTING_SIZES x
                  Hne Hlen) as (i & v & sz & Hi & Hv & Hsz & Hgv & Hgsz).
      exists i, v, sz. split; [done|]. split; [done|].
      unfold fitting_get_size. rewrite Hi. cbn [rbind]. rewrite Hgv.
      cbn [rbind]. by rewrite Hgsz.
    + assert (Hne' : AVAILABLE_FITTING_SIZES <> []).
      { intros E. rewrite E in Hlen. by destruct AVAILABLE_FITTING_IDS. }
      destruct (paired_lookup AVAILABLE_FITTING_SIZES AVAILABLE_FITTING_IDS x
                  Hne' (eq_sym Hlen))
        as (i & sz & v & Hi & Hsz & Hv & Hgsz & Hgv).
      exists i, v, sz. split; [done|]. split; [done|].
      unfold fitting_get_id. rewrite Hi. cbn [rbind]. rewrite Hgsz.
      cbn [rbind]. by rewrite Hgv.
Qed.

(** X14. [_get_size_sch40] and [_get_id_sch40] of [Pipe]: on an empty table
    they raise the [ValueError] of [argmin]; on tables that are not empty and
    have one row per size they always return, with a size and an inner
    diameter of one and the same row; [_get_id_sch40] looks the row up from
    the size it has first put on the object, [get_available_size(size)]. *)
Theorem sch40_lookups_return (self : component) (x : Quantity) :
  (AVAILABLE_IDS_SCH40 = [] ->
   Pipe_get_size_sch40 self x =
     Raise (ValueError "attempt to get argmin of an empty sequence"))
  /\ (AVAILABLE_SIZES = [] ->
      Pipe_get_id_sch40 self x =
        Raise (ValueError "attempt to get argmin of an empty sequence"))
  /\ (AVAILABLE_IDS_SCH40 <> [] ->
      List.length AVAILABLE_SIZES = List.length AVAILABLE_IDS_SCH40 ->
      (exists i v sz,
         AVAILABLE_IDS_SCH40 !! i = Some v
         /\ AVAILABLE_SIZES !! i = Some sz
         /\ Pipe_get_size_sch40 self x = Ok (set_id self v, sz))
      /\ (exists i v sz,
            AVAILABLE_IDS_SCH40 !! i = Some v
            /\ AVAILABLE_SIZES !! i = Some sz
            /\ argmin_abs_diff AVAILABLE_SIZES (get_available_size x) = Ok i
            /\ Pipe_get_id_sch40 self x =
                 Ok (set_size self (get_available_size x), v))).
Proof.
  split; [|split].
  - intros E. unfold Pipe_get_size_sch40. by rewrite E.
  - intros E. unfold Pipe_get_id_sch40. by rewrite E.
  - intros Hne Hlen. split.
    + destruct (paired_lookup AVAILABLE_IDS_SCH40 AVAILABLE_SIZES x Hne Hlen)
        as (i & v & sz & Hi & Hv & Hsz & Hgv & Hgsz).
      exists i, v, sz. split; [done|]. split; [done|].
      unfold Pipe_get_size_sch40. rewrite Hi. cbn [rbind]. rewrite Hgv.
      cbn [rbind]. by rewrite Hgsz.
    + assert (Hne' : AVAILABLE_SIZES <> []).
      { intros E. rewrite E in Hlen. by destruct AVAILABLE_IDS_SCH40. }
      destruct (paired_lookup AVAILABLE_SIZES AVAILABLE_IDS_SCH40
                  (get_available_size x) Hne' (eq_sym Hlen))
        as (i & sz & v & Hi & Hsz & Hv & Hgsz & Hgv).
      exists i, v, sz. split; [done|]. split; [done|]. split; [done|].
      unfold Pipe_get_id_sch40. rewrite size_set_size, Hi. cbn [rbind].
      by rewrite Hgv.
Qed.

End CatalogueProperties.

Section NearestRow.
Context `{Env}.

Lemma qltb_same_units (d best : Quantity) (u : string) :
  units d = u -> units best = u ->
  qltb d best = negb (Qle_bool (magnitude best) (magnitude d)).
Proof. intros Hd Hb. unfold qltb. by rewrite Hd, <- Hb, qto_same. Qed.

(** The invariant of [argmin_from]: [best], at [best_i], is least among the
    distances seen so far and strictly less than those before it. *)
Lemma argmin_from_least (l pre : list Quantity) (best_i : nat)
    (best : Quantity) (u : string) :
  Forall (fun d => units d = u) (pre ++ l)%list ->
  pre !! best_i = Some best ->
  (forall j d, pre !! j = Some d ->
     (magnitude best <= magnitude d)%Q
     /\ ((j < best_i)%nat -> (magnitude best < magnitude d)%Q)) ->
  exists m,
    (pre ++ l)%list !! argmin_from best_i best (List.length pre) l = Some m
    /\ forall j d, (pre ++ l)%list !! j = Some d ->
         (magnitude m <= magnitude d)%Q
         /\ ((j < argmin_from best_i best (List.length pre) l)%nat ->
             (magnitude m < magnitude d)%Q).
Proof.
  revert pre best_i best.
  induction l as [|d l IH]; intros pre best_i best Hu Hb Hleast.
  - cbn [argmin_from]. rewrite app_nil_r. by exists best.
  - assert (Hbu : units best = u).
    { apply (proj1 (Forall_forall _ _) Hu), elem_of_app. left.
      apply list_elem_of_lookup. by eexists. }
    assert (Hdu : units d = u).
    { apply (proj1 (Forall_forall _ _) Hu), elem_of_app. right.
      apply elem_of_cons. by left. }
    assert (Hbi : (best_i < List.length pre)%nat)
      by (by apply lookup_lt_Some in Hb).
    cbn [argmin_from]. rewrite (qltb_same_units d best u Hdu Hbu).
    rewrite (cons_middle d pre l), app_assoc in Hu |- *.
    replace (S (List.length pre)) with (List.length (pre ++ [d])%list)
      by (rewrite length_app; cbn; lia).
    destruct (Qle_bool (magnitude best) (magnitude d)) eqn:Hle; cbn [negb].
    + apply Qle_bool_iff in Hle.
      apply (IH (pre ++ [d])%list best_i best Hu).
      * by apply lookup_app_l_Some.
      * intros j d' Hj. destruct (decide (j < List.length pre)%nat) as [Hlt|Hge].
        -- rewrite lookup_app_l in Hj by done. by apply Hleast.
        -- rewrite lookup_app_r in Hj by lia.
           destruct (j - List.length pre)%nat as [|k] eqn:Ek; [|done].
           injection Hj as <-. split; [done|]. lia.
    + assert (Hlt : (magnitude d < magnitude best)%Q).
      { apply Qnot_le_lt. intros Hc. apply Qle_bool_iff in Hc. congruence. }
      apply (IH (pre ++ [d])%list (List.length pre) d Hu).
      * rewrite lookup_app_r by lia. by rewrite Nat.sub_diag.
      * intros j d' Hj. destruct (decide (j < List.length pre)%nat) as [Hl|Hge].
        -- rewrite lookup_app_l in Hj by done.
           destruct (Hleast j d' Hj) as [Hle' _].
           split; [|intros _].
           ++ apply Qlt_le_weak. by apply (Qlt_le_trans _ (magnitude best)).
           ++ by apply (Qlt_le_trans _ (magnitude best)).
        -- rewrite lookup_app_r in Hj by lia.
           destruct (j - List.length pre)%nat as [|k] eqn:Ek; [|done].
           injection Hj as <-. split; [apply Qle_refl|]. lia.
Qed.

Lemma argmin_abs_diff_nearest (arr : list Quantity) (x : Quantity)
    (u : string) (i : nat) :
  Forall (fun a => units (qsub a x) = u) arr ->
  argmin_abs_diff arr x = Ok i ->
  exists a,
    arr !! i = Some a
    /\ forall j b, arr !! j = Some b ->
         (distance x a <= distance x b)%Q
         /\ ((j < i)%nat -> (distance x a < distance x b)%Q).
Proof.
  intros Hu. unfold argmin_abs_diff.
  destruct arr as [|a0 arr]; [done|]. cbn [map]. intros [= <-].
  set (f := fun a => qabs (qsub a x)).
  assert (Hfu : Forall (fun d => units d = u) ([f a0] ++ map f arr)%list).
  { change ([f a0] ++ map f arr)%list with (map f (a0 :: arr)).
    apply Forall_fmap. by apply (Forall_impl _ _ _ Hu). }
  destruct (argmin_from_least (map f arr) [f a0] 0 (f a0) u Hfu eq_refl)
    as (m & Hm & Hleast).
  { intros j d Hj. destruct j; [|done]. injection Hj as <-.
    split; [apply Qle_refl|lia]. }
  change ([f a0] ++ map f arr)%list with (f <$> (a0 :: arr)) in Hm, Hleast.
  cbn [List.length] in Hm, Hleast.
  rewrite list_lookup_fmap in Hm.
  destruct ((a0 :: arr) !! argmin_from 0 (f a0) 1 (map f arr)) as [a|] eqn:Ea;
    [|done].
  injection Hm as <-. exists a. split; [done|].
  intros j b Hj. apply (Hleast j (f b)).
  by rewrite list_lookup_fmap, Hj.
Qed.

(** X15. The row that [_get_size] and [_get_id] of [Elbow] and [Tee] choose is
    a nearest one: when the differences to the rows of the table are all
    expressed in one unit, no row of the table is closer to the argument than
    the chosen one, and every earlier row is strictly farther (of rows
    equally near, the first is taken). *)
Theorem fitting_lookups_nearest (self self' : component) (x res : Quantity)
    (u : string) :
  (Forall (fun a => units (qsub a x) = u) AVAILABLE_FITTING_IDS ->
   fitting_get_size self x = Ok (self', res) ->
   exists i,
     AVAILABLE_FITTING_IDS !! i = Some (id self')
     /\ AVAILABLE_FITTING_SIZES !! i = Some res
     /\ forall j b, AVAILABLE_FITTING_IDS !! j = Some b ->
          (distance x (id self') <= distance x b)%Q
          /\ ((j < i)%nat -> (distance x (id self') < distance x b)%Q))
  /\ (Forall (fun a => units (qsub a x) = u) AVAILABLE_FITTING_SIZES ->
      fitting_get_id self x = Ok (self', res) ->
      exists i,
        AVAILABLE_FITTING_SIZES !! i = Some (size (base_of self'))
        /\ AVAILABLE_FITTING_IDS !! i = Some res
        /\ forall j b, AVAILABLE_FITTING_SIZES !! j = Some b ->
             (distance x (size (base_of self')) <= distance x b)%Q
             /\ ((j < i)%nat ->
                 (distance x (size (base_of self')) < distance x b)%Q)).
Proof.
  split; intros Hu;
    [unfold fitting_get_size | unfold fitting_get_id];
    (destruct (argmin_abs_diff _ x) as [i|e] eqn:Ei; [|done]);
    cbn [rbind]; unfold getitem;
    destruct (argmin_abs_diff_nearest _ x u i Hu Ei) as (a & Ha & Hnear);
    rewrite Ha; cbn [rbind].
  - destruct (AVAILABLE_FITTING_SIZES !! i) as [sz|] eqn:Esz; [|done].
    cbn [rbind]. intros [= <- <-]. rewrite id_set_id. by exists i.
  - destruct (AVAILABLE_FITTING_IDS !! i) as [v|] eqn:Ev; [|done].
    cbn [rbind]. intros [= <- <-]. rewrite size_set_size. by exists i.
Qed.

End NearestRow.

(** ** The specification of a pipe and the list of its diameters *)


Lemma set_size_set_size (self : component) (a b : Quantity) :
  set_size (set_size self a) b = set_size self b.
Proof. by destruct self. Qed.

Section SpecProperties.
Context `{Env}.



Lemma ID_SDR_loop_summary (sizes : list Quantity) (self : component) (SDR : Z)
    (ID : list Q) :
  ID_SDR_loop self sizes SDR ID =
    (match last sizes with
     | Some a => set_size self (get_available_size a)
     | None => self
     end,
     (ID ++
      map (fun a =>
             magnitude (qdiv (qmul (get_available_size a) (of_int (SDR - 2)))
                          (of_int SDR)))
        sizes)%list).
Proof.
  revert self ID. induction sizes as [|a sizes IH]; intros self ID.
  - cbn. by rewrite app_nil_r.
  - cbn [ID_SDR_loop]. unfold Pipe_get_id_sdr. rewrite IH.
    rewrite size_set_size, <- app_assoc. cbn [map app]. f_equal.
    destruct sizes as [|b sizes]; [done|].
    rewrite last_cons_cons.
    destruct (last (b :: sizes)) eqn:El; [|by apply last_None in El].
    apply set_size_set_size.
Qed.

(** X17. [ID_SDR_all_available] returns one diameter per available size, in
    the order of the table: the magnitude of [get_available_size(size) *
    (SDR - 2) / SDR], labelled as inches.  The call is not free of effect on
    the pipe: it leaves [self.size] at [get_available_size] of the last
    size of the table (unchanged only when the table is empty); no other
    attribute changes. *)
Theorem ID_SDR_all_available_summary (self : component) (SDR : Z) :
  Pipe_ID_SDR_all_available self SDR =
    (match last AVAILABLE_SIZES with
     | Some a => set_size self (get_available_size a)
     | None => self
     end,
     map (fun a =>
            Qty (magnitude
                   (qdiv (qmul (get_available_size a) (of_int (SDR - 2)))
                      (of_int SDR)))
              "inch")
       AVAILABLE_SIZES)
  /\ List.length (snd (Pipe_ID_SDR_all_available self SDR)) =
       List.length AVAILABLE_SIZES
  /\ id (fst (Pipe_ID_SDR_all_available self SDR)) = id self
  /\ next (fst (Pipe_ID_SDR_all_available self SDR)) = next self.
Proof.
  assert (Heq : Pipe_ID_SDR_all_available self SDR =
    (match last AVAILABLE_SIZES with
     | Some a => set_size self (get_available_size a)
     | None => self
     end,
     map (fun a =>
            Qty (magnitude
                   (qdiv (qmul (get_available_size a) (of_int (SDR - 2)))
                      (of_int SDR)))
              "inch")
       AVAILABLE_SIZES)).
  { unfold Pipe_ID_SDR_all_available. rewrite ID_SDR_loop_summary.
    cbn [app]. by rewrite map_map. }
  split; [done|]. rewrite Heq. cbn [fst snd].
  split; [by rewrite length_map|].
  destruct (last AVAILABLE_SIZES); by destruct self.
Qed.

End SpecProperties.

(** ** Printing *)

Section PrintingProperties.
Context `{Env} `{Printing}.

Lemma pprint_unfold (self : component) :
  pprint self =
    match next self with
    | None => format_print self
    | Some n =>
        let! line := format_print self in
        let! rest := pprint n in
        Ok (line ++ newline ++ rest)
    end.
Proof. by destruct self. Qed.

Lemma traverse_chain_not_nil (f : component -> result string)
    (self : component) (lines : list string) :
  traverse f (chain self) = Ok lines -> lines <> [].
Proof.
  rewrite (chain_unfold self). cbn [traverse].
  destruct (f self); [|done]. cbn [rbind].
  destruct (traverse f _); [|done]. cbn [rbind]. by intros [= <-].
Qed.

(** X18. [pprint] (and so [__str__] and [__repr__]) is the [format_print] of
    every component of the chain, first to last, joined by line breaks; it
    raises what the first failing [format_print] raises. *)
Theorem pprint_is_joined_lines (self : component) :
  pprint self =
    let! lines := traverse format_print (chain self) in
    Ok (join newline lines).
Proof.
  induction self as [c E|c n E IH] using component_next_ind;
    rewrite pprint_unfold, (chain_unfold c), E; cbn [traverse].
  - by destruct (format_print c).
  - rewrite IH. destruct (format_print c) as [line|e]; [|done].
    cbn [rbind].
    destruct (traverse format_print (chain n)) as [lines|e] eqn:El; [|done].
    cbn [rbind]. pose proof (traverse_chain_not_nil _ _ _ El).
    by destruct lines.
Qed.

(** X19. The property [od] of a [Pipe] raises the [ValueError] of [argmin]
    when the pipe table has no row; when the table has rows, and as many in
    its second column as in the column of nominal diameters, it returns the
    second column of one of the rows, in inches, and [format_print] of the
    pipe returns.  [format_print] of an [Elbow] always returns. *)
Theorem od_and_format_print (self : component) :
  (pipe_database_NDinch = [] ->
   Pipe_od self =
     Raise (ValueError "attempt to get argmin of an empty sequence"))
  /\ (pipe_database_NDinch <> [] ->
      List.length pipe_database_column_1 = List.length pipe_database_NDinch ->
      (exists i v,
         pipe_database_column_1 !! i = Some v
         /\ Pipe_od self = Ok (Qty v "inch"))
      /\ (type_of self = TPipe -> is_Ok (format_print self) = true))
  /\ (type_of self = TElbow -> is_Ok (format_print self) = true).
Proof.
  split; [|split].
  - intros E. unfold Pipe_od. by rewrite E.
  - intros Hne Hlen.
    assert (Hod : exists i v,
              pipe_database_column_1 !! i = Some v
              /\ Pipe_od self = Ok (Qty v "inch")).
    { unfold Pipe_od.
      pose proof (argmin_abs_diff_outcome
                    (map (fun x => Qty x "") pipe_database_NDinch)
                    (Qty (magnitude (size (base_of self))) "")) as Ho.
      destruct pipe_database_NDinch as [|x0 xs] eqn:E; [done|].
      cbn [map] in Ho. destruct Ho as (i & Hi & Hlt).
      cbn [map]. rewrite Hi. cbn [rbind].
      cbn [List.length] in Hlt. rewrite length_map in Hlt.
      destruct (lookup_lt_is_Some_2 pipe_database_column_1 i) as [v Hv];
        [rewrite Hlen; cbn [List.length]; lia|].
      exists i, v. by rewrite Hv. }
    split; [done|]. intros Hty. destruct self; try done.
    cbn [format_print]. destruct Hod as (i & v & _ & ->). done.
  - intros Hty. by destruct self.
Qed.

End PrintingProperties.

(** ** Construction and the other components *)

Section ConstructionFrame.
Context `{Env}.

Lemma headloss_same_q (c : component) (s1 s2 : store) :
  Component_q (as_Component (base_of c)) s1 =
    Component_q (as_Component (base_of c)) s2 ->
  headloss c s1 = headloss c s2.
Proof.
  intros Hq. destruct c as [b n i p|b n i a|b n i t l r]; cbn in *;
    by rewrite Hq.
Qed.

Lemma headloss_pipeline_same_q (self : component) (s1 s2 : store) :
  Forall (fun c => Component_q (as_Component (base_of c)) s1 =
                   Component_q (as_Component (base_of c)) s2) (chain self) ->
  headloss_pipeline self s1 = headloss_pipeline self s2.
Proof.
  induction self as [c E|c n E IH] using component_next_ind;
    rewrite (chain_unfold c), !headloss_pipeline_unfold, E;
    intros [Hc Hrest]%Forall_cons.
  - by apply headloss_same_q.
  - by rewrite (headloss_same_q c s1 s2 Hc), (IH Hrest).
Qed.

(** X20. A constructor call changes nothing for the components that exist:
    in a store where every entry refers to a record, whatever the call
    returns or raises, every component at another address reads the [q] and
    [temp] it read before; and when the address of the new object already
    has an entry, the store is left as it was, so that the [q] and [temp] of
    the call are dropped and the object reads the record of that entry. *)
Theorem construct_frame (ty : pytype) (self_id : N) (kw : kwargs) (s : store)
    (c : Component) :
  store_wf s ->
  (mem_loc c <> self_id ->
   Component_q c (snd (construct ty self_id kw s)) = Component_q c s
   /\ Component_temp c (snd (construct ty self_id kw s)) =
        Component_temp c s)
  /\ (is_Some (configs s !! self_id) ->
      snd (construct ty self_id kw s) = s).
Proof.
  intros Hwf. rewrite construct_cases.
  destruct (kw_in "size" kw && kw_in "id" kw); [done|].
  destruct (only_q_temp kw); [|done]. cbn [snd]. split.
  - intros Hne. destruct (configs s !! self_id) as [r|] eqn:E.
    + unfold Component_init. cbn [mem_loc]. by rewrite E.
    + destruct (Component_init_others self_id
                  (default default_q (kw_q kw))
                  (default default_temp (kw_temp kw)) s c Hwf E Hne)
        as (Hq & Ht & _). done.
  - intros [r E]. unfold Component_init. cbn [mem_loc]. by rewrite E.
Qed.

(** X21. The head loss does not follow the temperature: [headloss_pipeline]
    is the same in two stores in which the components of the chain read the
    same [q], whatever they read as [temp]; and two constructor calls that
    differ only in [temp] build components with the same attributes (the
    viscosity [nu] is that of 20 degC in both) and the same [headloss]. *)
Theorem headloss_ignores_temp (self : component) (s1 s2 : store)
    (ty : pytype) (self_id : N) (q : option Quantity)
    (temp1 temp2 : option Quantity) (s : store) :
  (Forall (fun c => Component_q (as_Component (base_of c)) s1 =
                    Component_q (as_Component (base_of c)) s2) (chain self) ->
   headloss_pipeline self s1 = headloss_pipeline self s2)
  /\ (configs s !! self_id = None ->
      let r1 := construct ty self_id (mkKwargs q temp1 ∅) s in
      let r2 := construct ty self_id (mkKwargs q temp2 ∅) s in
      fst r1 = Ok (default_object ty self_id)
      /\ fst r2 = Ok (default_object ty self_id)
      /\ nu (base_of (default_object ty self_id)) =
           viscosity_kinematic (Qty 20 "degC")
      /\ headloss (default_object ty self_id) (snd r1) =
           headloss (default_object ty self_id) (snd r2)).
Proof.
  split; [apply headloss_pipeline_same_q|].
  intros E r1 r2.
  assert (H1 : r1 = (Ok (default_object ty self_id), snd r1))
    by (subst r1; by rewrite construct_cases).
  assert (H2 : r2 = (Ok (default_object ty self_id), snd r2))
    by (subst r2; by rewrite construct_cases).
  split; [by rewrite H1|]. split; [by rewrite H2|].
  split; [by destruct ty|].
  apply headloss_same_q. rewrite default_object_Component.
  destruct (construct_returns ty self_id (mkKwargs q temp1 ∅) s (snd r1)
              (default_object ty self_id) H1) as [_ ->].
  destruct (construct_returns ty self_id (mkKwargs q temp2 ∅) s (snd r2)
              (default_object ty self_id) H2) as [_ ->].
  cbn [kw_q kw_temp].
  destruct (Component_init_reads self_id (default default_q q)
              (default default_temp temp1) s E) as [-> _].
  by destruct (Component_init_reads self_id (default default_q q)
                 (default default_temp temp2) s E) as [-> _].
Qed.

End ConstructionFrame.

(** * Evaluation of the further properties on concrete inputs *)

Section FurtherEvaluation.
#[local] Existing Instance sample_env.
#[local] Existing Instance sample_printing.

Lemma store_wf_empty : store_wf empty_store.
Proof. done. Qed.

Lemma store_wf_registered_store : store_wf registered_store.
Proof. apply store_wf_Component_init, store_wf_empty. Qed.

Lemma chain_pipe_elbow_pipe :
  chain pipe_elbow_pipe =
    [pipe_elbow_pipe; set_next sample_elbow (Some (sample_pipe 3));
     sample_pipe 3].
Proof. reflexivity. Qed.

Example propogate_config_unregistered_parent :
  propogate_config (mkComponent 9) [mkComponent 1] registered_store =
    (Raise (KeyError 9), registered_store)
  /\ propogate_config (mkComponent 9) [] registered_store =
       (Ok tt, registered_store).
Proof. split; reflexivity. Qed.

Example pprint_pipe_elbow_pipe :
  pprint pipe_elbow_pipe =
    Ok ("Pipe: (OD: inch, Size: inch, ID: inch, Length: m, Spec: sdr41)"
        ++ newline ++ "Elbow: (Size: inch, ID: inch, Angle: deg)"
        ++ newline
        ++ "Pipe: (OD: inch, Size: inch, ID: inch, Length: m, Spec: sdr41)").
Proof. by vm_compute. Qed.

Example ID_SDR_all_available_sample :
  snd (Pipe_ID_SDR_all_available (sample_pipe 1) 41) =
    [Qty (0.5 * 39 / 41) "inch"; Qty (1 * 39 / 41) "inch";
     Qty (2 * 39 / 41) "inch"; Qty (3 * 39 / 41) "inch"]
  /\ size (base_of (fst (Pipe_ID_SDR_all_available (sample_pipe 1) 41))) =
       Qty 3 "inch".
Proof. split; by vm_compute. Qed.

Lemma propogate_config_last_parent_wins_witness :
  let p1 := mkComponent 1 in
  let p2 := mkComponent 2 in
  let child := mkComponent 3 in
  let s1 := snd (propogate_config p1 [child] two_parents) in
  let s2 := snd (propogate_config p2 [child] s1) in
  let s3 := snd (configs_set_q (mem_loc p1) (Qty 5 "L/s") s2) in
  configs two_parents !! mem_loc p1 = Some 0%N
  /\ configs two_parents !! mem_loc p2 = Some 1%N
  /\ configs s1 !! mem_loc child = Some 0%N
  /\ configs s2 !! mem_loc child = Some 1%N
  /\ Component_q child s2 = Component_q p2 two_parents
  /\ Component_q p1 s3 = Ok (Qty 5 "L/s")
  /\ Component_q child s3 = Component_q p2 two_parents.
Proof.
  split; [reflexivity|]. split; [reflexivity|].
  apply (propogate_config_last_parent_wins (mkComponent 1) (mkComponent 2)
           (mkComponent 3) two_parents 0%N 1%N (Qty 5 "L/s"));
    [reflexivity | reflexivity | discriminate | discriminate | discriminate].
Defined.

Lemma Component_init_record_is_private_witness :
  configs registered_store !! 2%N = None
  /\ let s' := snd (Component_init 2 (Qty 7 "L/s") default_temp
                      registered_store) in
     Component_q (mkComponent 2) s' = Ok (Qty 7 "L/s")
     /\ Component_temp (mkComponent 2) s' = Ok default_temp
     /\ forall c, mem_loc c <> 2%N ->
          Component_q c s' = Component_q c registered_store
          /\ Component_temp c s' = Component_temp c registered_store
          /\ forall v,
               Component_q c (snd (configs_set_q 2 v s')) =
                 Component_q c registered_store.
Proof.
  split; [reflexivity|].
  apply (Component_init_record_is_private 2 (Qty 7 "L/s") default_temp
           registered_store);
    [apply store_wf_registered_store | reflexivity].
Defined.

Lemma propogate_config_sets_chain_flow_witness :
  configs registered_store !! mem_loc (mkComponent 1) = Some 0%N
  /\ let s' := snd (propogate_config (mkComponent 1)
                      (components_of pipe_elbow_pipe) registered_store) in
     let q := PlantInput.q (record_of registered_store 0) in
     Component_q (mkComponent 1) registered_store = Ok q
     /\ Forall (registered s') (chain pipe_elbow_pipe)
     /\ Forall (fun c => Component_q (as_Component (base_of c)) s' =
                         Component_q (mkComponent 1) registered_store)
          (chain pipe_elbow_pipe)
     /\ headloss_pipeline pipe_elbow_pipe s' =
          (let! h := headloss_at pipe_elbow_pipe q in
           let! hs :=
             traverse (fun c => headloss_at c q)
               (tail (chain pipe_elbow_pipe)) in
           Ok (sum_right h hs))
     /\ forall v,
          Forall (fun c =>
                    Component_q (as_Component (base_of c))
                      (snd (configs_set_q (mem_loc (mkComponent 1)) v s')) =
                      Ok v)
            (chain pipe_elbow_pipe).
Proof.
  split; [reflexivity|].
  apply (propogate_config_sets_chain_flow (mkComponent 1) pipe_elbow_pipe
           registered_store 0%N).
  reflexivity.
Defined.

(** The chain of three components, two of them unregistered, put on the
    record of the component at the address 1, which reads 35 L/s. *)
Example headloss_pipeline_after_propagation :
  is_Ok (headloss_pipeline pipe_elbow_pipe registered_store) = false
  /\ headloss_pipeline pipe_elbow_pipe
       (snd (propogate_config (mkComponent 1) (components_of pipe_elbow_pipe)
               registered_store)) =
     Ok (qadd (Qty (35 * 1) "m")
           (qadd (Qty (35 * 0.9) "m") (Qty (35 * 1) "m"))).
Proof. split; by vm_compute. Qed.

Lemma valid_chain_alternates_witness :
  Forall (fun c => rep_ok c = Ok tt) (chain pipe_elbow_pipe)
  /\ next pipe_elbow_pipe = Some (set_next sample_elbow (Some (sample_pipe 3)))
  /\ ((type_of pipe_elbow_pipe = TPipe
       /\ type_of (set_next sample_elbow (Some (sample_pipe 3))) <> TPipe)
      \/ (type_of pipe_elbow_pipe <> TPipe
          /\ type_of (set_next sample_elbow (Some (sample_pipe 3))) = TPipe))
  /\ (type_of pipe_elbow_pipe = TTee ->
      qneb (size (base_of pipe_elbow_pipe))
        (size (base_of (set_next sample_elbow (Some (sample_pipe 3))))) =
        false).
Proof.
  assert (Hall : Forall (fun c => rep_ok c = Ok tt) (chain pipe_elbow_pipe)).
  { rewrite chain_pipe_elbow_pipe. repeat constructor. }
  split; [exact Hall|].
  apply (valid_chain_alternates pipe_elbow_pipe pipe_elbow_pipe
           (set_next sample_elbow (Some (sample_pipe 3))) 0 Hall);
    reflexivity.
Defined.

Lemma constructed_component_witness :
  let kw := mkKwargs (Some (Qty 7 "L/s")) None ∅ in
  let s' := snd (construct TElbow 2 kw registered_store) in
  construct TElbow 2 kw registered_store = (Ok sample_elbow, s')
  /\ registered s' sample_elbow
  /\ as_Component (base_of sample_elbow) = mkComponent 2
  /\ type_of sample_elbow = TElbow
  /\ next sample_elbow = None
  /\ rep_ok sample_elbow = Ok tt
  /\ (exists q,
        Component_q (as_Component (base_of sample_elbow)) s' = Ok q
        /\ headloss sample_elbow s' = headloss_at sample_elbow q)
  /\ (configs registered_store !! 2%N = None ->
      Component_q (as_Component (base_of sample_elbow)) s' =
        Ok (default (Qty 20 "L/s") (kw_q kw))
      /\ Component_temp (as_Component (base_of sample_elbow)) s' =
           Ok (default (Qty 20 "degC") (kw_temp kw))).
Proof.
  split; [reflexivity|].
  apply (constructed_component TElbow 2
           (mkKwargs (Some (Qty 7 "L/s")) None ∅) registered_store).
  reflexivity.
Defined.

(** A returned component need not have a head loss: the formula of a pipe
    rejects the flow rate of [Pipe(q = 0 * u.L / u.s)]. *)
Example constructed_pipe_without_headloss :
  construct TPipe 1 (mkKwargs (Some (Qty 0 "L/s")) None ∅) empty_store =
    (Ok (sample_pipe 1), still_water)
  /\ Component_q (mkComponent 1) still_water = Ok (Qty 0 "L/s")
  /\ headloss (sample_pipe 1) still_water =
       headloss_at (sample_pipe 1) (Qty 0 "L/s")
  /\ is_Ok (headloss (sample_pipe 1) still_water) = false.
Proof. repeat split; by vm_compute. Qed.

Lemma fitting_lookups_return_witness :
  AVAILABLE_FITTING_IDS <> []
  /\ List.length AVAILABLE_FITTING_SIZES = List.length AVAILABLE_FITTING_IDS
  /\ (exists i v sz,
        AVAILABLE_FITTING_IDS !! i = Some v
        /\ AVAILABLE_FITTING_SIZES !! i = Some sz
        /\ fitting_get_size sample_elbow (Qty 1.3 "inch") =
             Ok (set_id sample_elbow v, sz))
  /\ (exists i v sz,
        AVAILABLE_FITTING_IDS !! i = Some v
        /\ AVAILABLE_FITTING_SIZES !! i = Some sz
        /\ fitting_get_id sample_elbow (Qty 1.3 "inch") =
             Ok (set_size sample_elbow sz, v)).
Proof.
  split; [discriminate|]. split; [reflexivity|].
  destruct (fitting_lookups_return sample_elbow (Qty 1.3 "inch"))
    as (_ & _ & Hret).
  apply Hret; [discriminate | reflexivity].
Defined.

Lemma sch40_lookups_return_witness :
  AVAILABLE_IDS_SCH40 <> []
  /\ List.length AVAILABLE_SIZES = List.length AVAILABLE_IDS_SCH40
  /\ (exists i v sz,
        AVAILABLE_IDS_SCH40 !! i = Some v
        /\ AVAILABLE_SIZES !! i = Some sz
        /\ Pipe_get_size_sch40 (sample_pipe 1) (Qty 1 "inch") =
             Ok (set_id (sample_pipe 1) v, sz)).
Proof.
  split; [discriminate|]. split; [reflexivity|].
  destruct (sch40_lookups_return (sample_pipe 1) (Qty 1 "inch"))
    as (_ & _ & Hret).
  apply Hret; [discriminate | reflexivity].
Defined.

Lemma fitting_lookups_nearest_witness :
  Forall (fun a => units (qsub a (Qty 1.3 "inch")) = "inch")
    AVAILABLE_FITTING_IDS
  /\ fitting_get_size sample_elbow (Qty 1.3 "inch") =
       Ok (set_id sample_elbow (Qty 1.325 "inch"), Qty 1 "inch")
  /\ exists i,
       AVAILABLE_FITTING_IDS !! i =
         Some (id (set_id sample_elbow (Qty 1.325 "inch")))
       /\ AVAILABLE_FITTING_SIZES !! i = Some (Qty 1 "inch")
       /\ forall j b, AVAILABLE_FITTING_IDS !! j = Some b ->
            (distance (Qty 1.3 "inch")
               (id (set_id sample_elbow (Qty 1.325 "inch")))
             <= distance (Qty 1.3 "inch") b)%Q
            /\ ((j < i)%nat ->
                (distance (Qty 1.3 "inch")
                   (id (set_id sample_elbow (Qty 1.325 "inch")))
                 < distance (Qty 1.3 "inch") b)%Q).
Proof.
  assert (Hu : Forall (fun a => units (qsub a (Qty 1.3 "inch")) = "inch")
                 AVAILABLE_FITTING_IDS) by (repeat constructor).
  split; [exact Hu|]. split; [reflexivity|].
  destruct (fitting_lookups_nearest sample_elbow
              (set_id sample_elbow (Qty 1.325 "inch")) (Qty 1.3 "inch")
              (Qty 1 "inch") "inch") as [Hsize _].
  apply Hsize; [exact Hu | reflexivity].
Defined.

Lemma od_and_format_print_witness :
  pipe_database_NDinch <> []
  /\ List.length pipe_database_column_1 = List.length pipe_database_NDinch
  /\ (exists i v,
        pipe_database_column_1 !! i = Some v
        /\ Pipe_od (sample_pipe 1) = Ok (Qty v "inch"))
  /\ (type_of (sample_pipe 1) = TPipe ->
      is_Ok (format_print (sample_pipe 1)) = true).
Proof.
  split; [discriminate|]. split; [reflexivity|].
  destruct (od_and_format_print (sample_pipe 1)) as (_ & Hod & _).
  apply Hod; [discriminate | reflexivity].
Defined.

Lemma construct_frame_witness :
  (mem_loc (mkComponent 1) <> 2%N ->
   Component_q (mkComponent 1)
     (snd (construct TPipe 2 no_kwargs registered_store)) =
     Component_q (mkComponent 1) registered_store
   /\ Component_temp (mkComponent 1)
        (snd (construct TPipe 2 no_kwargs registered_store)) =
        Component_temp (mkComponent 1) registered_store)
  /\ (is_Some (configs registered_store !! 2%N) ->
      snd (construct TPipe 2 no_kwargs registered_store) = registered_store).
Proof.
  apply (construct_frame TPipe 2 no_kwargs registered_store (mkComponent 1)).
  apply store_wf_registered_store.
Defined.

Example construct_at_registered_address :
  let kw := mkKwargs (Some (Qty 99 "L/s")) None ∅ in
  construct TPipe 1 kw registered_store = (Ok (sample_pipe 1), registered_store)
  /\ Component_q (mkComponent 1) registered_store = Ok (Qty 35 "L/s").
Proof. split; by vm_compute. Qed.

End FurtherEvaluation.
